(** * File_Watcher: filename conditions, observer activation and shutdown

    A shallow embedding of the parts of the STAT file watcher that its
    specification makes claims about:

    - [src/test_conditions.py]: the condition lambdas of [test_configs] and
      the matching loop of [test_real_files];
    - [src/main.py]: [validate_configuration], [create_observers],
      [cleanup_observers], [signal_handler] and [main];
    - [src/ui/notifications.py]: [show_status_notification] and the
      notifications built on it;
    - [src/ui/tray_app.py]: [TrayApp.quit_app].

    The packages [core] and [config] are not among the sources.  What
    the code above imports from them is a parameter of the definitions
    that use it; the name normalizer and the copy action, which the
    specification describes, are in addition modelled from its text
    (modules [Normalizer] and [CopyAction]).

    Python strings are sequences of Unicode code points; they are modelled
    as lists of [N].  Literals are written as UTF-8 text and decoded.
    The definitions come first, the facts about them after. *)

From Stdlib Require Import ZArith NArith List Bool Ascii String Lia.
From Stdlib Require Import DecimalN.
From stdpp Require Import base option list gmap.

Import ListNotations.
Local Open Scope N_scope.

(* ================================================================== *)
(** * Python strings *)
(* ================================================================== *)

Module PyStr.

Definition codepoint := N.
Definition pystr := list codepoint.

(** Decoding of a UTF-8 byte sequence (1- to 4-byte forms); a truncated
    trailing sequence is dropped.  Only used to write literals. *)
Fixpoint utf8_decode (bs : list N) : pystr :=
  match bs with
  | [] => []
  | b0 :: r0 =>
      if b0 <? 128 then b0 :: utf8_decode r0
      else if b0 <? 224 then
        match r0 with
        | b1 :: r1 => ((b0 - 192) * 64 + (b1 - 128)) :: utf8_decode r1
        | _ => []
        end
      else if b0 <? 240 then
        match r0 with
        | b1 :: b2 :: r2 =>
            ((b0 - 224) * 4096 + (b1 - 128) * 64 + (b2 - 128))
              :: utf8_decode r2
        | _ => []
        end
      else
        match r0 with
        | b1 :: b2 :: b3 :: r3 =>
            ((b0 - 240) * 262144 + (b1 - 128) * 4096
             + (b2 - 128) * 64 + (b3 - 128)) :: utf8_decode r3
        | _ => []
        end
  end.

(** [u "text"] is the Python literal ["text"]. *)
Definition u (s : string) : pystr :=
  utf8_decode (List.map N_of_ascii (list_ascii_of_string s)).

Arguments u s : simpl never.

(** [s.startswith(p)] *)
Fixpoint startswith (s p : pystr) {struct p} : bool :=
  match p, s with
  | [], _ => true
  | _ :: _, [] => false
  | c :: p', d :: s' => (d =? c) && startswith s' p'
  end.

(** [s.startswith((p1, ..., pn))]: the tuple form. *)
Definition startswith_any (s : pystr) (ps : list pystr) : bool :=
  existsb (startswith s) ps.

(** [s.endswith(p)]: [p] is compared with the last [len(p)] items. *)
Definition endswith (s p : pystr) : bool :=
  startswith (rev s) (rev p).

(** [p in s]: [p] occurs in [s] as a contiguous substring. *)
Fixpoint contains (p s : pystr) : bool :=
  startswith s p ||
  match s with
  | [] => false
  | _ :: s' => contains p s'
  end.

(** [s == t] *)
Fixpoint eqb_str (s t : pystr) : bool :=
  match s, t with
  | [], [] => true
  | c :: s', d :: t' => (c =? d) && eqb_str s' t'
  | _, _ => false
  end.

(** What [p in s] decides: [s] is [p] with something before and after. *)
Definition occurs (p s : pystr) : Prop :=
  exists before after, s = before ++ p ++ after.

(** [any(x in s for x in xs)] *)
Definition any_in (xs : list pystr) (s : pystr) : bool :=
  existsb (fun x => contains x s) xs.

(** Lower-casing of one code point, on the two alphabets the watch
    rules are written in: Basic Latin [A-Z] and the Cyrillic block
    (U+0410..U+042F map to U+0430..U+044F, U+0400..U+040F to
    U+0450..U+045F).  Every other code point is left as it is. *)
Definition lower_cp (c : codepoint) : codepoint :=
  if (65 <=? c) && (c <=? 90) then c + 32
  else if (1040 <=? c) && (c <=? 1071) then c + 32
  else if (1024 <=? c) && (c <=? 1039) then c + 80
  else c.

(** [s.lower()] *)
Definition lower (s : pystr) : pystr := List.map lower_cp s.


(** [str(b)] for a Python bool, as interpolated by an f-string. *)
Definition str_of_bool (b : bool) : pystr :=
  if b then u "True" else u "False".

(** The decimal digits of a number, most significant first. *)
Fixpoint digits (d : Decimal.uint) : pystr :=
  match d with
  | Decimal.Nil => []
  | Decimal.D0 d' => 48 :: digits d'
  | Decimal.D1 d' => 49 :: digits d'
  | Decimal.D2 d' => 50 :: digits d'
  | Decimal.D3 d' => 51 :: digits d'
  | Decimal.D4 d' => 52 :: digits d'
  | Decimal.D5 d' => 53 :: digits d'
  | Decimal.D6 d' => 54 :: digits d'
  | Decimal.D7 d' => 55 :: digits d'
  | Decimal.D8 d' => 56 :: digits d'
  | Decimal.D9 d' => 57 :: digits d'
  end.

(** [str(n)] for a non-negative integer, as interpolated by an
    f-string. *)
Definition str_of_N (n : N) : pystr := digits (N.to_uint n).

End PyStr.
Export PyStr.


(* ================================================================== *)
(** * The name normalizer *)
(* ================================================================== *)

Module Normalizer.

(** Modelled from the spec: [core/utils.py], which defines
    [normalize_filename_for_comparison], is not among the sources.  The
    table holds the visually-confusable pairs the specification lists
    (section 4.1), always folded from Cyrillic to Latin. *)
Definition layout_table : list (codepoint * codepoint) :=
  [ (1072, 97)    (* а -> a *)
  ; (1088, 112)   (* р -> p *)
  ; (1089, 99)    (* с -> c *)
  ; (1077, 101)   (* е -> e *)
  ; (1093, 120)   (* х -> x *) ].

(** Modelled from the spec: the table lookup of the missing normalizer;
    the first pair whose key is [c] decides. *)
Fixpoint lookup_alias (c : codepoint) (t : list (codepoint * codepoint))
  : option codepoint :=
  match t with
  | [] => None
  | (k, v) :: t' => if c =? k then Some v else lookup_alias c t'
  end.

(** Modelled from the spec: the transliteration step of the missing
    normalizer; a code point outside the table passes through. *)
Definition fold_layout (c : codepoint) : codepoint :=
  match lookup_alias c layout_table with
  | Some l => l
  | None => c
  end.

(** Modelled from the spec: the whitespace cleanup of the missing
    normalizer; a run of spaces (U+0020) becomes one space. *)
Fixpoint collapse_spaces (s : pystr) : pystr :=
  match s with
  | [] => []
  | c :: t =>
      match t with
      | d :: _ =>
          if (c =? 32) && (d =? 32) then collapse_spaces t
          else c :: collapse_spaces t
      | [] => [c]
      end
  end.

(** Modelled from the spec: the punctuation cleanup of the missing
    normalizer; trailing underscores (U+005F) are removed. *)
Fixpoint rstrip_underscores (s : pystr) : pystr :=
  match s with
  | [] => []
  | c :: t =>
      match rstrip_underscores t with
      | [] => if c =? 95 then [] else [c]
      | t' => c :: t'
      end
  end.

(** Modelled from the spec: [normalize_filename_for_comparison] of the
    missing [core/utils.py], in its full-name form: lower-case, fold the
    layout aliases to Latin, collapse spaces, strip trailing
    underscores.  It is total: unmapped code points pass through. *)
Definition normalize_filename_for_comparison (raw : pystr) : pystr :=
  rstrip_underscores
    (collapse_spaces (List.map fold_layout (lower raw))).

End Normalizer.

(* ================================================================== *)
(** * Python values and the effects the conditions have *)
(* ================================================================== *)

Module PyEval.

(** The values a condition can produce. *)
Inductive pyval : Type :=
| PyNone
| PyBool (b : bool).

(** Truth-value testing: [None] and [False] are falsy. *)
Definition truthy (v : pyval) : bool :=
  match v with
  | PyNone => false
  | PyBool b => b
  end.

(** What a condition can observe and change: the host clock (the
    proleptic Gregorian ordinal of today's local date, as returned by
    [date.toordinal()]) and the text written to standard output. *)
Record world : Type := World {
  today : Z;
  stdout : list pystr
}.

Definition IO (A : Type) : Type := world -> A * world.

Definition ret {A} (a : A) : IO A := fun w => (a, w).

Definition bind {A B} (m : IO A) (k : A -> IO B) : IO B :=
  fun w => let (a, w') := m w in k a w'.

Definition value {A} (m : IO A) (w : world) : A := fst (m w).
Definition effect {A} (m : IO A) (w : world) : world := snd (m w).

(** [print(text)]: writes and returns [None]. *)
Definition print (text : pystr) : IO pyval :=
  fun w => (PyNone, {| today := today w; stdout := stdout w ++ [text] |}).

(** [datetime.now().weekday()]: Monday is 0 and Sunday is 6; CPython
    computes it as [(toordinal() + 6) % 7]. *)
Definition weekday (ordinal : Z) : Z := ((ordinal + 6) mod 7)%Z.

Definition weekday_now : IO Z :=
  fun w => (weekday (today w), w).

(** [a or b]: [b] is evaluated only when [a] is falsy. *)
Definition py_or (a b : IO pyval) : IO pyval :=
  bind a (fun v => if truthy v then ret v else b).

(** [a and b]: [b] is evaluated only when [a] is truthy. *)
Definition py_and (a b : IO pyval) : IO pyval :=
  bind a (fun v => if truthy v then b else ret v).

(** [any(gen)]: consumes the generator up to its first truthy item. *)
Fixpoint py_any (gen : list (IO pyval)) : IO bool :=
  match gen with
  | [] => ret false
  | g :: rest =>
      bind g (fun v => if truthy v then ret true else py_any rest)
  end.

(** The exception classes the watcher can meet.  [except Exception]
    catches every [exception]; [KeyboardInterrupt] and [SystemExit]
    derive from [BaseException] only and pass through it. *)
Inductive exception : Type :=
| KeyError
| AttributeError
| ValueError
| RuntimeError
| OSError.

Inductive base_exception : Type :=
| KeyboardInterrupt
| SystemExit
| Exc (e : exception).

End PyEval.
Export PyEval.

Declare Scope io_scope.
Delimit Scope io_scope with io.
Bind Scope io_scope with IO.

Notation "x <- c1 ;; c2" := (bind c1 (fun x => c2))
  (at level 100, c1 at next level, right associativity) : io_scope.

(* ================================================================== *)
(** * src/test_conditions.py *)
(* ================================================================== *)

Module TestConditions.

Definition condition : Type := pystr -> IO pyval.

Section Imports.

(** The two names imported from [core.utils] (line 1). *)
Variable normalize_filename_for_comparison : pystr -> pystr.
Variable create_flexible_condition : list pystr -> condition.

(** Line 56. *)
Definition cond_01x : condition := fun name =>
  py_and
    (ret (PyBool (startswith (normalize_filename_for_comparison name)
                    (u "01x"))))
    (ret (PyBool (endswith name (u ".xlsx")))).

(** Line 57. *)
Definition cond_norm : condition := fun name =>
  ret (PyBool (startswith_any (normalize_filename_for_comparison name)
                 [u "норм"; u "norm"])).

(** Lines 67-68: the substring test the Friday condition wraps. *)
Definition zalishki_test (name : pystr) : bool :=
  any_in [u "залишки на рах вкл"; u "zalishki na rax vkl"]
    (normalize_filename_for_comparison name).

(** Lines 65-69. *)
Definition cond_zalishki : condition := fun name =>
  py_and
    (wd <- weekday_now ;; ret (PyBool (wd =? 4)%Z))%io
    (ret (PyBool (zalishki_test name))).

(** Line 78: the pure predicate behind the diagnostic condition. *)
Definition aktivi_test (name : pystr) : bool :=
  any_in [u "активи"; u "aktivi"]
    (normalize_filename_for_comparison name).

(** Lines 74-77: the f-string handed to [print]. *)
Definition aktivi_message (name : pystr) : pystr :=
  u "Проверка 'активи' для '" ++ name ++ u "'" ++ [10]
  ++ u "Нормализовано: '" ++ normalize_filename_for_comparison name
  ++ u "'" ++ [10]
  ++ u "Содержит 'активи': "
  ++ str_of_bool
       (contains (u "активи") (normalize_filename_for_comparison name))
  ++ [10]
  ++ u "Содержит 'aktivi': "
  ++ str_of_bool
       (contains (u "aktivi") (normalize_filename_for_comparison name)).

(** Lines 73-79. *)
Definition cond_aktivi : condition := fun name =>
  py_or (print (aktivi_message name))
        (ret (PyBool (aktivi_test name))).

(** Line 83. *)
Definition cond_sr : condition := fun name =>
  ret (PyBool (startswith (normalize_filename_for_comparison name)
                 (u "sr"))).

(** The conditions the matching loop is meant for: the clock is read but
    not moved, and the answer depends on nothing else in the world. *)
Definition stable (cond : condition) : Prop :=
  forall name w,
    today (effect (cond name) w) = today w /\
    forall w', today w' = today w ->
               value (cond name) w' = value (cond name) w.

(** Lines 54-87: the [conditions] entry of [test_configs]. *)
Definition test_conditions : list condition :=
  [ cond_01x
  ; cond_norm
  ; create_flexible_condition [u "c5"; u "с5"]
  ; create_flexible_condition [u "6rx"; u "6рх"]
  ; cond_zalishki
  ; create_flexible_condition [u "6jx"; u "6јх"]
  ; cond_aktivi
  ; create_flexible_condition [u "6kx"; u "6кх"]
  ; cond_sr
  ; create_flexible_condition [u "42x"] ].

(** Lines 32 and 38: the name is normalized, and the normalized name
    is handed to every condition until one is truthy. *)
Definition file_matches (conditions : list condition)
  (filename : pystr) : IO bool :=
  let normalized := normalize_filename_for_comparison filename in
  py_any (List.map (fun cond => cond normalized) conditions).

(** Lines 30-39: the [matching_files] accumulator. *)
Fixpoint matching_files (conditions : list condition)
  (real_files : list pystr) : IO (list pystr) :=
  match real_files with
  | [] => ret []
  | filename :: rest =>
      (hit <- file_matches conditions filename ;;
       found <- matching_files conditions rest ;;
       ret (if hit then filename :: found else found))%io
  end.

End Imports.

End TestConditions.


(* ================================================================== *)
(** * src/ui/notifications.py *)
(* ================================================================== *)

Module Notifications.

Record toast : Type := Toast {
  toast_title : pystr;
  toast_msg : pystr;
  toast_duration : pystr
}.

(** What the desktop does with a toast: whether [winotify] could be
    imported (line 10) and whether [toast.show()] raises (line 89). *)
Record desktop : Type := Desktop {
  winotify_available : bool;
  show_raises : bool
}.

Inductive delivery : Type :=
| Unavailable
| Shown (t : toast)
| NotShown (t : toast).

(** Lines 62-93.  Every [Exception] of the body is caught at line 92,
    so the call always returns [None]; the icon lookup is left out. *)
Definition show_status_notification (d : desktop)
  (title message : pystr) (duration : Z) : delivery :=
  if negb (winotify_available d) then Unavailable
  else
    let t := {| toast_title := title;
                toast_msg := message;
                toast_duration :=
                  if (duration <=? 5)%Z then u "short" else u "long" |} in
    if show_raises d then NotShown t else Shown t.

(** Lines 95-103. *)
Definition show_startup_notification (d : desktop) : delivery :=
  show_status_notification d (u "📊 File Watcher")
    (u "Фоновый мониторинг файлов запущен") 3.

(** Lines 105-113. *)
Definition show_shutdown_notification (d : desktop) : delivery :=
  show_status_notification d (u "📊 File Watcher")
    (u "Мониторинг файлов остановлен") 3.

(** Lines 115-126. *)
Definition show_error_notification (d : desktop) (error_message : pystr)
  : delivery :=
  show_status_notification d (u "❌ File Watcher - Ошибка")
    error_message 10.

End Notifications.

(* ================================================================== *)
(** * src/main.py: configuration check and observers *)
(* ================================================================== *)

Module Main.

Definition path : Type := pystr.

(** One entry of [WATCH_CONFIGS].  The entries are dicts; a key that is
    absent is [None] here and raises [KeyError] when subscripted.  The
    destination directory is part of a watch rule (specification,
    section 3); no function of [main.py] reads it. *)
Record config : Type := Config {
  watch_dir : option path;
  conditions : option (list TestConditions.condition);
  description : option pystr;
  dest_dir : option path
}.

(** An [Observer()] object; [obs_id] is the index of the configuration
    it was created for, which tells the objects apart. *)
Record observer : Type := Observer {
  obs_id : nat;
  obs_path : path
}.

Inductive level : Type := INFO | WARNING | ERROR.

(** The log lines of [main.py], by message template. *)
Inductive message : Type :=
| Checking_configuration
| Problems_but_continue
| Critical_configuration_error (e : exception)
| Creating_observers
| Skipping_missing_directory (p : path)
| Observer_started (d : pystr) (p : path)
| Observer_creation_error (p : option path) (e : exception)
| Observers_created (active possible : nat)
| Stopping_observers
| Observer_stopped (d : pystr)
| Observer_stop_error (i : nat) (e : exception)
| All_observers_stopped
| Signal_received (signum : Z)
| Startup_banner
| Base_directory
| Configuration_fatal
| No_observer_started
| Initialising_ui
| Tray_unavailable
| System_started (n : nat)
| Tray_mode
| Console_mode
| Ctrl_c
| User_interrupt
| Critical_error (e : exception)
| Shutting_down
| System_stopped.

Definition log_record : Type := (level * message)%type.

(** What the host answers: [Path(p).exists()], and the exception, if
    any, that building the handler or scheduling and starting the
    observer raises for the configuration at an index; the exception,
    if any, that stopping or joining an observer raises. *)
Record host : Type := Host {
  path_exists : path -> bool;
  start_error : nat -> option exception;
  stop_error : observer -> option exception
}.

(** The imported helpers [validate_configuration] calls, none of which
    is among the sources: the path list of
    [config.watch_rules.get_watch_paths], the two extra paths of
    [config.settings], the verdict of [core.utils.validate_paths], and
    the exception, if any, that escapes one of them or
    [core.utils.test_filename_conditions]. *)
Record checks : Type := Checks {
  get_watch_paths : list (path * pystr);
  DEST_BASE : path;
  ICON_DIR : path;
  validate_paths : list (path * pystr) -> bool;
  check_error : option base_exception
}.

(** Lines 98-131.  The first log call is outside the [try]. *)
Definition validate_configuration (k : checks)
  : base_exception + bool * list log_record :=
  match check_error k with
  | Some (Exc e) =>
      inr (false, [(INFO, Checking_configuration);
                   (ERROR, Critical_configuration_error e)])
  | Some e => inl e
  | None =>
      let paths_to_check :=
        get_watch_paths k
        ++ [(DEST_BASE k, u "Базовая директория назначения");
            (ICON_DIR k, u "Директория с иконкой")] in
      let all_valid := validate_paths k paths_to_check in
      inr (true,
           (INFO, Checking_configuration)
           :: (if all_valid then []
               else [(WARNING, Problems_but_continue)]))
  end.

(** [enumerate(l)], counting from [i]. *)
Fixpoint enumerate_from {A} (i : nat) (l : list A) : list (nat * A) :=
  match l with
  | [] => []
  | x :: l' => (i, x) :: enumerate_from (S i) l'
  end.

(** Line 147: [config.get("description", f"Наблюдатель {i+1}")]. *)
Definition description_of (i : nat) (c : config) : pystr :=
  match description c with
  | Some d => d
  | None => u "Наблюдатель " ++ str_of_N (N.of_nat (i + 1))
  end.

(** What one turn of the loop of [create_observers] comes to. *)
Inductive activation : Type :=
| Skipped (p : path)
| Started (o : observer) (d : pystr)
| Failed (p : option path) (e : exception).

(** Lines 144-164, up to the bookkeeping. *)
Definition activate (h : host) (i : nat) (c : config) : activation :=
  match watch_dir c with
  | None => Failed None KeyError
  | Some p =>
      match conditions c with
      | None => Failed (Some p) KeyError
      | Some _ =>
          if negb (path_exists h p) then Skipped p
          else
            match start_error h i with
            | Some e => Failed (Some p) e
            | None =>
                Started {| obs_id := i; obs_path := p |}
                        (description_of i c)
            end
      end
  end.

(** The state the loop carries: the [observers] list and the log. *)
Definition create_state : Type :=
  (list (observer * config) * list log_record)%type.

(** Lines 143-164: the body of the [for] loop. *)
Definition create_step (h : host) (st : create_state)
  (ic : nat * config) : create_state :=
  let '(observers, log) := st in
  let '(i, c) := ic in
  match activate h i c with
  | Skipped p =>
      (observers, log ++ [(WARNING, Skipping_missing_directory p)])
  | Started o d =>
      (observers ++ [(o, c)],
       log ++ [(INFO, Observer_started d (obs_path o))])
  | Failed p e =>
      (observers, log ++ [(ERROR, Observer_creation_error p e)])
  end.

(** Lines 133-167. *)
Definition create_observers (h : host) (WATCH_CONFIGS : list config)
  : create_state :=
  let '(observers, log) :=
    fold_left (create_step h) (enumerate_from 0 WATCH_CONFIGS)
      ([], [(INFO, Creating_observers)]) in
  (observers,
   log ++ [(INFO, Observers_created (length observers)
                    (length WATCH_CONFIGS))]).

(** Lines 215-222: one turn of the loop of [cleanup_observers]. *)
Definition cleanup_step (h : host) (log : list log_record)
  (ioc : nat * (observer * config)) : list log_record :=
  let '(i, (o, c)) := ioc in
  match stop_error h o with
  | Some e => log ++ [(WARNING, Observer_stop_error (i + 1) e)]
  | None => log ++ [(INFO, Observer_stopped (description_of i c))]
  end.

(** Lines 206-224. *)
Definition cleanup_observers (h : host)
  (observers : list (observer * config)) : list log_record :=
  fold_left (cleanup_step h) (enumerate_from 0 observers)
    [(INFO, Stopping_observers)]
  ++ [(INFO, All_observers_stopped)].

(* ================================================================== *)
(** * src/main.py: the main function *)
(* ================================================================== *)

(** The module-level names of [main.py] that change while it runs (lines
    54-55).  [logger] is [false] while the name is still [None]. *)
Record globals : Type := Globals {
  logger : bool;
  RUNNING : bool
}.

(** The state [main] runs in: the module globals, what has been logged
    and which toasts were asked for, and the local [observers], which
    is [None] until line 264 has bound it. *)
Record state : Type := State {
  module_globals : globals;
  journal : list log_record;
  toasts : list Notifications.delivery;
  local_observers : option (list (observer * config))
}.

(** The state in which the interpreter enters [main] (line 320). *)
Definition initial : state :=
  {| module_globals := {| logger := false; RUNNING := true |};
     journal := [];
     toasts := [];
     local_observers := None |}.

(** How a statement ends: it falls through, returns or raises. *)
Inductive completion (A : Type) : Type :=
| Normal (a : A)
| Return (code : Z)
| Raise (e : base_exception).

Arguments Normal {A} a.
Arguments Return {A} code.
Arguments Raise {A} e.

Definition stmt (A : Type) : Type := state -> completion A * state.

Definition skip : stmt unit := fun s => (Normal tt, s).

Definition and_then {A B} (m : stmt A) (k : A -> stmt B) : stmt B :=
  fun s =>
    match m s with
    | (Normal a, s') => k a s'
    | (Return code, s') => (Return code, s')
    | (Raise e, s') => (Raise e, s')
    end.

Definition return_ {A} (code : Z) : stmt A := fun s => (Return code, s).

Definition raise {A} (e : base_exception) : stmt A :=
  fun s => (Raise e, s).

(** [logger.info(...)] and the like: an attribute access on the global
    [logger], which raises [AttributeError] while it is [None]. *)
Definition log (l : level) (m : message) : stmt unit :=
  fun s =>
    if logger (module_globals s) then
      (Normal tt,
       {| module_globals := module_globals s;
          journal := journal s ++ [(l, m)];
          toasts := toasts s;
          local_observers := local_observers s |})
    else (Raise (Exc AttributeError), s).

(** The log lines a callee writes through the same global. *)
Fixpoint emit (records : list log_record) : stmt unit :=
  match records with
  | [] => skip
  | (l, m) :: rest => and_then (log l m) (fun _ => emit rest)
  end.

Definition notify (d : Notifications.delivery) : stmt unit :=
  fun s =>
    (Normal tt,
     {| module_globals := module_globals s;
        journal := journal s;
        toasts := toasts s ++ [d];
        local_observers := local_observers s |}).

Definition set_logger : stmt unit :=
  fun s =>
    (Normal tt,
     {| module_globals :=
          {| logger := true; RUNNING := RUNNING (module_globals s) |};
        journal := journal s;
        toasts := toasts s;
        local_observers := local_observers s |}).

Definition set_RUNNING (b : bool) : stmt unit :=
  fun s =>
    (Normal tt,
     {| module_globals :=
          {| logger := logger (module_globals s); RUNNING := b |};
        journal := journal s;
        toasts := toasts s;
        local_observers := local_observers s |}).

Definition set_observers (obs : list (observer * config)) : stmt unit :=
  fun s =>
    (Normal tt,
     {| module_globals := module_globals s;
        journal := journal s;
        toasts := toasts s;
        local_observers := Some obs |}).

(** [try: body except ...: handler finally: final].  The handler of the
    first matching clause runs when the body raises; [final] runs last
    on every path, and when it returns or raises itself, that replaces
    whatever the body or the handler ended with. *)
Definition try_except_finally (body : stmt unit)
  (handler : base_exception -> option (stmt unit))
  (final : stmt unit) : stmt unit :=
  fun s =>
    let (c1, s1) := body s in
    let (c2, s2) :=
      match c1 with
      | Raise e =>
          match handler e with
          | Some h => h s1
          | None => (c1, s1)
          end
      | _ => (c1, s1)
      end in
    let (c3, s3) := final s2 in
    match c3 with
    | Normal _ => (c2, s3)
    | _ => (c3, s3)
    end.

(** The calls of the [try] body of [main] that the environment can cut
    short with an exception. *)
Inductive site : Type :=
| At_signal            (* lines 254-255 *)
| At_create_observers  (* line 264 *)
| At_tray              (* lines 272-275 *)
| At_thread            (* lines 279-285 *)
| At_run.              (* lines 295 and 300-301 *)

(** Everything outside [main.py] that one run of [main] depends on. *)
Record run_env : Type := RunEnv {
  the_host : host;
  the_checks : checks;
  the_desktop : Notifications.desktop;
  WATCH_CONFIGS : list config;
  logging_error : option base_exception;
  fallback_error : option base_exception;
  interrupt : site -> option base_exception;
  tray_ready : bool;
  signal_after : nat;
  exception_text : exception -> pystr
}.

(** Lines 57-96.  An [Exception] of the set-up (lines 64-90) is caught
    and a plain logger is returned, unless the fallback raises as well;
    anything else leaves the function. *)
Definition setup_logging (env : run_env) : option base_exception :=
  match logging_error env with
  | None => None
  | Some (Exc _) => fallback_error env
  | Some e => Some e
  end.

Definition at_site (env : run_env) (k : site) : stmt unit :=
  match interrupt env k with
  | Some e => raise e
  | None => skip
  end.

Declare Scope stmt_scope.
Delimit Scope stmt_scope with stmt.
Bind Scope stmt_scope with stmt.

Notation "x <- c1 ;; c2" := (and_then c1 (fun x => c2))
  (at level 100, c1 at next level, right associativity) : stmt_scope.
Notation "c1 ;; c2" := (and_then c1 (fun _ => c2))
  (at level 100, right associativity) : stmt_scope.

(** Lines 226-236. *)
Definition signal_handler (signum : Z) : stmt unit :=
  (log INFO (Signal_received signum) ;;
   set_RUNNING false)%stmt.

(** Lines 300-301: [while RUNNING: time.sleep(1)].  The loop ends when a
    signal handler has cleared the flag; [ticks] is the number of whole
    sleeps before SIGTERM arrives. *)
Fixpoint console_wait (ticks : nat) : stmt unit :=
  fun s =>
    if RUNNING (module_globals s) then
      match ticks with
      | O => signal_handler 15 s
      | S k => console_wait k s
      end
    else (Normal tt, s).

(** Line 249. *)
Definition bind_logger (env : run_env) : stmt unit :=
  match setup_logging env with
  | Some e => raise e
  | None => set_logger
  end.

(** Line 258: the call, with the log lines of the callee. *)
Definition check_configuration (env : run_env) : stmt bool :=
  match validate_configuration (the_checks env) with
  | inl e => (log INFO Checking_configuration ;; raise e)%stmt
  | inr (ok, records) => (emit records ;; fun s => (Normal ok, s))%stmt
  end.

(** Lines 250-303: the [try] body of [main] after the logger is bound. *)
Definition main_after_setup (env : run_env) : stmt unit :=
  (log INFO Startup_banner ;;
   log INFO Base_directory ;;
   at_site env At_signal ;;
   ok <- check_configuration env ;;
   if negb ok then
     log ERROR Configuration_fatal ;;
     notify (Notifications.show_error_notification (the_desktop env)
               (u "Критические ошибки конфигурации")) ;;
     return_ 1
   else
     at_site env At_create_observers ;;
     let (observers, records) :=
       create_observers (the_host env) (WATCH_CONFIGS env) in
     emit records ;;
     set_observers observers ;;
     match observers with
     | [] =>
         log ERROR No_observer_started ;;
         notify (Notifications.show_error_notification (the_desktop env)
                   (u "Не удалось запустить наблюдателей")) ;;
         return_ 1
     | _ :: _ =>
         log INFO Initialising_ui ;;
         at_site env At_tray ;;
         (if tray_ready env then skip else log WARNING Tray_unavailable) ;;
         at_site env At_thread ;;
         log INFO (System_started (length observers)) ;;
         notify (Notifications.show_startup_notification
                   (the_desktop env)) ;;
         if tray_ready env then
           log INFO Tray_mode ;;
           at_site env At_run
         else
           log INFO Console_mode ;;
           match interrupt env At_run with
           | Some KeyboardInterrupt => log INFO Ctrl_c
           | Some e => raise e
           | None => console_wait (signal_after env)
           end
     end)%stmt.

(** Lines 247-303: the body of the [try] statement of [main]. *)
Definition main_body (env : run_env) : stmt unit :=
  (bind_logger env ;; main_after_setup env)%stmt.

(** Lines 305-310: the two [except] clauses. *)
Definition main_handler (env : run_env) (e : base_exception)
  : option (stmt unit) :=
  match e with
  | KeyboardInterrupt => Some (log INFO User_interrupt)
  | Exc e' =>
      Some (log ERROR (Critical_error e') ;;
            notify (Notifications.show_error_notification
                      (the_desktop env)
                      (u "Критическая ошибка: " ++ exception_text env e')) ;;
            return_ 1)%stmt
  | SystemExit => None
  end.

(** Lines 311-317: the [finally] clause. *)
Definition main_finally (env : run_env) : stmt unit :=
  (log INFO Shutting_down ;;
   set_RUNNING false ;;
   (fun s =>
      match local_observers s with
      | Some observers =>
          emit (cleanup_observers (the_host env) observers) s
      | None => (Normal tt, s)
      end) ;;
   log INFO System_stopped ;;
   return_ 0)%stmt.

(** Lines 238-317. *)
Definition main (env : run_env) : stmt unit :=
  try_except_finally (main_body env) (main_handler env) (main_finally env).

(** What one test of the guard of [background_monitoring] leads to: the
    loop is left, or it takes a turn, which may run the health check and
    the heartbeat and leaves a new counter. *)
Inductive turn : Type :=
| Leave
| Again (heartbeat_counter : nat) (health_check heartbeat : bool).

(** Lines 182-193: one turn of the loop of [background_monitoring], from
    the test of the guard to the reset of the counter.  The two intervals
    are positive constants of [config.settings]. *)
Definition background_turn (HEALTH_CHECK_INTERVAL HEARTBEAT_INTERVAL : nat)
  (heartbeat_counter : nat) (g : globals) : turn :=
  if RUNNING g then
    let counter := (heartbeat_counter + 1)%nat in
    let health := (counter mod HEALTH_CHECK_INTERVAL =? 0)%nat in
    let beat := (counter mod HEARTBEAT_INTERVAL =? 0)%nat in
    Again (if beat then 0%nat else counter) health beat
  else Leave.

End Main.

(* ================================================================== *)
(** * src/ui/tray_app.py *)
(* ================================================================== *)

Module Tray.

(** An instance of [TrayApp] (lines 28-32).  [icon] is [None] until
    [setup_tray] has built it; the flag tells whether the icon's loop is
    still running. *)
Record TrayApp : Type := MkTrayApp {
  observers : list (Main.observer * Main.config);
  icon : option bool;
  running : bool
}.

Inductive tray_message : Type :=
| Quit_requested
| Quit_error (e : exception).

(** The namespaces [quit_app] can reach: the globals of the module
    [main], the attribute [RUNNING] of the module [config.settings]
    ([None] while the module has no such attribute), the [TrayApp]
    instance, the log of the module [ui.tray_app] and the toasts. *)
Record process : Type := Process {
  main_globals : Main.globals;
  settings_RUNNING : option bool;
  app : TrayApp;
  tray_journal : list (Main.level * tray_message);
  tray_toasts : list Notifications.delivery
}.

(** Lines 211-236.  [icon_stop_error] is the exception, if any, that
    [self.icon.stop()] raises. *)
Definition quit_app (d : Notifications.desktop)
  (icon_stop_error : option exception) (p : process) : process :=
  let journal1 := tray_journal p ++ [(Main.INFO, Quit_requested)] in
  let self := app p in
  match icon self, icon_stop_error with
  | Some _, Some e =>
      {| main_globals := main_globals p;
         settings_RUNNING := Some false;
         app := {| observers := observers self;
                   icon := icon self;
                   running := false |};
         tray_journal := journal1 ++ [(Main.ERROR, Quit_error e)];
         tray_toasts := tray_toasts p |}
  | Some _, None =>
      {| main_globals := main_globals p;
         settings_RUNNING := Some false;
         app := {| observers := observers self;
                   icon := Some false;
                   running := false |};
         tray_journal := journal1;
         tray_toasts :=
           tray_toasts p ++ [Notifications.show_shutdown_notification d] |}
  | None, _ =>
      {| main_globals := main_globals p;
         settings_RUNNING := Some false;
         app := {| observers := observers self;
                   icon := None;
                   running := false |};
         tray_journal := journal1;
         tray_toasts :=
           tray_toasts p ++ [Notifications.show_shutdown_notification d] |}
  end.

End Tray.


(* ================================================================== *)
(** * The copy action *)
(* ================================================================== *)

Module CopyAction.

(** A destination directory: file names and the bytes stored under
    them. *)
Abbreviation directory := (gmap pystr (list N)).

(** Modelled from the spec: the copy action lives in [core/], which is
    not among the sources.  The disambiguating suffix the handler appends
    on a conflict (section 4.4): an underscore and a decimal stamp. *)
Definition suffixed (name : pystr) (stamp : N) : pystr :=
  name ++ u "_" ++ str_of_N stamp.

(** Modelled from the spec: the retry-on-collision loop of the missing
    copy action (section 5); it starts at the timestamp and moves to the
    next stamp while the candidate is taken. *)
Fixpoint free_name (dest : directory) (name : pystr) (stamp : N)
  (tries : nat) : option pystr :=
  match tries with
  | O => None
  | S k =>
      let candidate := suffixed name stamp in
      match dest !! candidate with
      | None => Some candidate
      | Some _ => free_name dest name (N.succ stamp) k
      end
  end.

(** Modelled from the spec: the ephemeral record of a copy action
    (section 3): where the file went, the directory afterwards, and
    whether the conflict warning was logged. *)
Record copy_result : Type := CopyResult {
  destination_path : pystr;
  destination_after : directory;
  conflict_logged : bool
}.

(** Modelled from the spec: the copy action of the missing event
    handler (section 4.4).  The file keeps its name when the name is
    free; on a conflict it is written under a suffixed name that is
    free, and a warning is logged.  A directory of [n] files cannot
    hold all of [n + 1] candidates, so that many tries are given. *)
Definition copy_file (dest : directory) (name : pystr) (content : list N)
  (now : N) : option copy_result :=
  match dest !! name with
  | None =>
      Some {| destination_path := name;
              destination_after := <[name := content]> dest;
              conflict_logged := false |}
  | Some _ =>
      match free_name dest name now (S (size dest)) with
      | Some candidate =>
          Some {| destination_path := candidate;
                  destination_after := <[candidate := content]> dest;
                  conflict_logged := true |}
      | None => None
      end
  end.

End CopyAction.

(* ================================================================== *)
(** * Notions used in the statements below *)
(* ================================================================== *)

(** The worlds the examples are evaluated in: Friday 15 August 2025 (the
    date in the watched directory's name, line 53 of the test module) and
    the Wednesday before it, nothing printed yet. *)
Definition friday : world := {| today := 739478; stdout := [] |}.
Definition wednesday : world := {| today := 739476; stdout := [] |}.

(** A code point the normalizer leaves alone. *)
Definition settled (c : codepoint) : Prop :=
  lower_cp c = c /\ Normalizer.fold_layout c = c.

(** No two spaces in a row. *)
Fixpoint single_spaced (s : pystr) : Prop :=
  match s with
  | [] => True
  | c :: t =>
      match t with
      | [] => True
      | d :: _ => (c =? 32) && (d =? 32) = false /\ single_spaced t
      end
  end.

(** The observer, if any, that one configuration contributes to the list
    [create_observers] returns, and the one log line it leaves. *)
Definition started (h : Main.host) (ic : nat * Main.config)
  : list (Main.observer * Main.config) :=
  match Main.activate h (fst ic) (snd ic) with
  | Main.Started o _ => [(o, snd ic)]
  | _ => []
  end.

Definition activation_record (h : Main.host) (ic : nat * Main.config)
  : Main.log_record :=
  match Main.activate h (fst ic) (snd ic) with
  | Main.Skipped p => (Main.WARNING, Main.Skipping_missing_directory p)
  | Main.Started o d => (Main.INFO, Main.Observer_started d (Main.obs_path o))
  | Main.Failed p e => (Main.ERROR, Main.Observer_creation_error p e)
  end.

(** A rule whose source directory "r:/in" exists and whose destination
    "r:/out" does not, on a host where only "r:/in" and the icon
    directory exist and every observer starts. *)
Definition rule_without_destination : Main.config :=
  {| Main.watch_dir := Some (u "r:/in");
     Main.conditions := Some [];
     Main.description := None;
     Main.dest_dir := Some (u "r:/out") |}.

(** A rule whose source directory "r:/gone" does not exist there. *)
Definition rule_without_source : Main.config :=
  {| Main.watch_dir := Some (u "r:/gone");
     Main.conditions := Some [];
     Main.description := None;
     Main.dest_dir := Some (u "r:/out") |}.

Definition host_without_destination : Main.host :=
  {| Main.path_exists :=
       fun p => eqb_str p (u "r:/in") || eqb_str p (u "r:/icons");
     Main.start_error := fun _ => None;
     Main.stop_error := fun _ => None |}.

Definition checks_without_destination : Main.checks :=
  {| Main.get_watch_paths := [(u "r:/in", u "watch")];
     Main.DEST_BASE := u "r:/out";
     Main.ICON_DIR := u "r:/icons";
     Main.validate_paths :=
       forallb (fun pd => Main.path_exists host_without_destination (fst pd));
     Main.check_error := None |}.


(** Three runs of [main]: one in which nothing goes wrong, no tray is
    available and SIGTERM arrives after three seconds; one in which a
    helper of the configuration check raises [OSError], so that line 261
    executes [return 1]; and one in which Ctrl+C interrupts
    [setup_logging]. *)
Definition quiet_env : Main.run_env :=
  {| Main.the_host := host_without_destination;
     Main.the_checks := checks_without_destination;
     Main.the_desktop := {| Notifications.winotify_available := true;
                            Notifications.show_raises := false |};
     Main.WATCH_CONFIGS := [rule_without_destination];
     Main.logging_error := None;
     Main.fallback_error := None;
     Main.interrupt := fun _ => None;
     Main.tray_ready := false;
     Main.signal_after := 3;
     Main.exception_text := fun _ => [] |}.



(** A process in which the tray icon is up and every flag is set, and a
    destination directory that already holds "report.xlsx". *)
Definition running_process : Tray.process :=
  {| Tray.main_globals := {| Main.logger := true; Main.RUNNING := true |};
     Tray.settings_RUNNING := None;
     Tray.app := {| Tray.observers := [];
                    Tray.icon := Some true;
                    Tray.running := true |};
     Tray.tray_journal := [];
     Tray.tray_toasts := [] |}.

Definition reports : gmap pystr (list N) :=
  {[ u "report.xlsx" := [80; 75; 3; 4] ]}.

(* ================================================================== *)
(** * src/test_conditions.py: the run over the watched directories *)
(* ================================================================== *)

Module RealFiles.

(** What a path points at: nothing, something that is not a directory,
    or a directory with its entries; an entry is a name and the answer
    of [is_file()]. *)
Inductive node : Type :=
| Absent
| Not_a_directory
| Directory (entries : list (pystr * bool)).

(** The lines [test_real_files] logs at level INFO or above (the
    [debug] lines of 33-35 are below the level set at line 7).  The
    line of a missing directory is logged as an error. *)
Inductive line : Type :=
| Banner
| Missing_directory (watch_dir : Main.path)
| Directory_header (watch_dir : Main.path)
| Matching_header
| Matching_file (file : pystr)
| Nothing_found
| End_banner.

(** Line 28: the names of the entries that are files. *)
Definition real_files (entries : list (pystr * bool)) : list pystr :=
  List.map fst (List.filter snd entries).

(** Lines 41-46. *)
Definition found_lines (matching : list pystr) : list line :=
  match matching with
  | [] => [Nothing_found]
  | _ :: _ => Matching_header :: List.map Matching_file matching
  end.

Section Imports.

Variable normalize_filename_for_comparison : pystr -> pystr.

(** What the file system answers to [exists()] and [iterdir()]. *)
Variable fs : Main.path -> node.

(** Lines 17-46: the loop over the configurations.  Nothing catches an
    exception here: a missing key ([KeyError]) or a watched path that
    is not a directory ([iterdir] fails with an [OSError]) ends the run,
    with the lines logged so far. *)
Fixpoint visit (watch_configs : list Main.config)
  : IO (list line * option exception) :=
  match watch_configs with
  | [] => ret ([], None)
  | config :: rest =>
      match Main.watch_dir config with
      | None => ret ([], Some KeyError)
      | Some watch_dir =>
          match Main.conditions config with
          | None => ret ([], Some KeyError)
          | Some conditions =>
              match fs watch_dir with
              | Absent =>
                  (r <- visit rest ;;
                   ret (Missing_directory watch_dir :: fst r, snd r))%io
              | Not_a_directory =>
                  ret ([Directory_header watch_dir], Some OSError)
              | Directory entries =>
                  (found <- TestConditions.matching_files
                              normalize_filename_for_comparison
                              conditions (real_files entries) ;;
                   r <- visit rest ;;
                   ret (Directory_header watch_dir
                        :: found_lines found ++ fst r, snd r))%io
              end
          end
      end
  end.

(** Lines 10-48. *)
Definition test_real_files (watch_configs : list Main.config)
  : IO (list line * option exception) :=
  (r <- visit watch_configs ;;
   ret (Banner :: fst r
        ++ match snd r with
           | None => [End_banner]
           | Some _ => []
           end,
        snd r))%io.

End Imports.

End RealFiles.

(* ================================================================== *)
(** * src/main.py: the monitoring loop over several turns *)
(* ================================================================== *)

Module Monitoring.


End Monitoring.

(* ================================================================== *)
(** * src/ui/notifications.py: the notification of a new file *)
(* ================================================================== *)

Module FileNotification.

(** The toast of [show_notification]: it has an icon when the icon file
    exists and a sound when [audio] could be imported. *)
Record file_toast : Type := FileToast {
  ft_title : pystr;
  ft_msg : pystr;
  ft_icon : option pystr;
  ft_sound : bool
}.

Inductive file_delivery : Type :=
| No_module
| Toast_shown (t : file_toast)
| Toast_failed (t : file_toast).

(** [a or b] for an optional string [a]: [None] and the empty string
    are falsy. *)
Definition str_or (a : option pystr) (b : pystr) : pystr :=
  match a with
  | Some (c :: s) => c :: s
  | _ => b
  end.

(** Lines 20-60.  [Notification] and [audio] come from one import
    statement (line 10), so either both are there or neither is.
    Every [Exception] of the body is caught at line 59. *)
Definition show_notification (d : Notifications.desktop)
  (NOTIFICATION_TITLE ICON_PATH : pystr) (icon_exists : bool)
  (file_name : pystr) (custom_title custom_message : option pystr)
  : file_delivery :=
  if negb (Notifications.winotify_available d) then No_module
  else
    let t := {| ft_title := str_or custom_title NOTIFICATION_TITLE;
                ft_msg := str_or custom_message file_name;
                ft_icon := if icon_exists then Some ICON_PATH else None;
                ft_sound := true |} in
    if Notifications.show_raises d then Toast_failed t else Toast_shown t.

End FileNotification.

(* ================================================================== *)
(** * src/ui/tray_app.py: the icon, the tray and the statistics *)
(* ================================================================== *)

Module TrayMenu.

(** An image: where it comes from and its size in pixels. *)
Record image : Type := Image {
  drawn : bool;
  size : nat * nat
}.

(** What the tray depends on.  [pystray] and PIL come from one [try]
    (lines 9-16): when either import fails all three names are [None].
    [icon_file] is [None] when [ICON_PATH] does not exist, and else what
    [Image.open] does: it raises, or gives an image of some size. *)
Record toolkit : Type := Toolkit {
  imports_ok : bool;
  icon_file : option (exception + nat * nat);
  resize_error : option exception;
  draw_error : option exception;
  icon_error : option exception;
  run_error : option exception
}.

Definition size_eqb (a b : nat * nat) : bool :=
  (fst a =? fst b)%nat && (snd a =? snd b)%nat.

(** Lines 58-76: the icon drawn by the program. *)
Definition drawn_icon (k : toolkit) : option image :=
  match draw_error k with
  | Some _ => None
  | None => Some {| drawn := true; size := (64, 64)%nat |}
  end.

(** Lines 36-76. *)
Definition create_tray_icon (k : toolkit) : option image :=
  if negb (imports_ok k) then None
  else
    match icon_file k with
    | Some (inr sz) =>
        if size_eqb sz (64, 64)%nat then Some {| drawn := false; size := sz |}
        else
          match resize_error k with
          | None => Some {| drawn := false; size := (64, 64)%nat |}
          | Some _ => drawn_icon k
          end
    | Some (inl _) => drawn_icon k
    | None => drawn_icon k
    end.

(** Lines 28-32: [TrayApp()]. *)
Definition init : Tray.TrayApp :=
  {| Tray.observers := []; Tray.icon := None; Tray.running := true |}.

(** Lines 78-110: the answer and the instance afterwards.  The icon it
    builds has not been stopped. *)
Definition setup_tray (k : toolkit) (self : Tray.TrayApp)
  : bool * Tray.TrayApp :=
  if negb (imports_ok k) then (false, self)
  else
    match create_tray_icon k with
    | None => (false, self)
    | Some _ =>
        match icon_error k with
        | Some _ => (false, self)
        | None =>
            (true,
             {| Tray.observers := Tray.observers self;
                Tray.icon := Some true;
                Tray.running := Tray.running self |})
        end
    end.

(** Lines 238-255: the answer of [run], once the blocking call is
    over. *)
Definition run (k : toolkit) (self : Tray.TrayApp) : bool :=
  match Tray.icon self with
  | None => false
  | Some _ =>
      match run_error k with
      | Some _ => false
      | None => true
      end
  end.

(** The dict [get_stats] returns. *)
Record stats : Type := Stats {
  total_observers : Z;
  active_observers : Z;
  inactive_observers : Z;
  tray_running : bool
}.

(** Line 274: [sum(1 for obs, _ in self.observers if obs.is_alive())];
    the sum is lost when [is_alive] raises. *)
Fixpoint count_alive (is_alive : Main.observer -> exception + bool)
  (observers : list (Main.observer * Main.config)) : exception + nat :=
  match observers with
  | [] => inr 0%nat
  | (obs, _) :: rest =>
      match is_alive obs with
      | inl e => inl e
      | inr alive =>
          match count_alive is_alive rest with
          | inl e => inl e
          | inr n => inr (if alive then S n else n)
          end
      end
  end.

(** Lines 266-288. *)
Definition get_stats (is_alive : Main.observer -> exception + bool)
  (self : Tray.TrayApp) : stats :=
  match count_alive is_alive (Tray.observers self) with
  | inr active_count =>
      let total := Z.of_nat (length (Tray.observers self)) in
      {| total_observers := total;
         active_observers := Z.of_nat active_count;
         inactive_observers := (total - Z.of_nat active_count)%Z;
         tray_running :=
           Tray.running self
           && match Tray.icon self with
              | Some _ => true
              | None => false
              end |}
  | inl _ =>
      {| total_observers := 0;
         active_observers := 0;
         inactive_observers := 0;
         tray_running := false |}
  end.

End TrayMenu.

(** The configurations [test_real_files] gets through: both keys are
    there and the watched path is absent or a directory. *)
Definition passable (fs : Main.path -> RealFiles.node)
  (config : Main.config) : Prop :=
  exists watch_dir,
    Main.watch_dir config = Some watch_dir /\
    Main.conditions config <> None /\
    fs watch_dir <> RealFiles.Not_a_directory.

(** A file system for the examples: "r:/in" is a directory with two
    files and a subdirectory, "r:/file" is a file, nothing else exists;
    and three configurations over it, the last without its
    [conditions] key.  The examples normalize by lower-casing. *)
Definition sample_fs (p : Main.path) : RealFiles.node :=
  if eqb_str p (u "r:/in") then
    RealFiles.Directory
      [(u "01X_a.xlsx", true); (u "sr_old", false); (u "notes.txt", true)]
  else if eqb_str p (u "r:/file") then RealFiles.Not_a_directory
  else RealFiles.Absent.

Definition sample_rule : Main.config :=
  {| Main.watch_dir := Some (u "r:/in");
     Main.conditions :=
       Some [TestConditions.cond_01x lower; TestConditions.cond_sr lower];
     Main.description := None;
     Main.dest_dir := None |}.

Definition sample_rule_gone : Main.config :=
  {| Main.watch_dir := Some (u "r:/gone");
     Main.conditions := Some [TestConditions.cond_sr lower];
     Main.description := None;
     Main.dest_dir := None |}.

Definition sample_rule_without_conditions : Main.config :=
  {| Main.watch_dir := Some (u "r:/in");
     Main.conditions := None;
     Main.description := None;
     Main.dest_dir := None |}.

(** The one log line [cleanup_observers] writes for an observer. *)
Definition cleanup_record (h : Main.host)
  (ioc : nat * (Main.observer * Main.config)) : Main.log_record :=
  match Main.stop_error h (fst (snd ioc)) with
  | Some e => (Main.WARNING, Main.Observer_stop_error (fst ioc + 1) e)
  | None =>
      (Main.INFO,
       Main.Observer_stopped (Main.description_of (fst ioc) (snd (snd ioc))))
  end.

(** The state after some lines have been written to the log. *)
Definition logged (s : Main.state) (records : list Main.log_record)
  : Main.state :=
  {| Main.module_globals := Main.module_globals s;
     Main.journal := Main.journal s ++ records;
     Main.toasts := Main.toasts s;
     Main.local_observers := Main.local_observers s |}.


(** A condition that leaves the world as it finds it. *)
Definition silent (cond : TestConditions.condition) : Prop :=
  forall name w, effect (cond name) w = w.


(** The log records at one level. *)
Definition at_level (l : Main.level) (log : list Main.log_record)
  : list Main.log_record :=
  List.filter
    (fun r => match fst r, l with
              | Main.INFO, Main.INFO => true
              | Main.WARNING, Main.WARNING => true
              | Main.ERROR, Main.ERROR => true
              | _, _ => false
              end) log.

(* ================================================================== *)
(** * Sanity checks of the string model *)
(* ================================================================== *)

(* ================================================================== *)
(** * Facts about Python strings *)
(* ================================================================== *)

Section StringFacts.

Lemma startswith_spec (p s : pystr) :
  startswith s p = true <-> exists rest, s = p ++ rest.
Proof.
  revert s. induction p as [|c p IH]; intros s; simpl.
  - split; [intros _; now exists s | reflexivity].
  - destruct s as [|d s].
    + split; [discriminate | intros [rest H]; discriminate].
    + rewrite andb_true_iff, N.eqb_eq, IH. split.
      * intros [-> [rest ->]]. now exists rest.
      * intros [rest H]. injection H as -> ->. split; [reflexivity | now exists rest].
Qed.


Lemma contains_spec (p s : pystr) :
  contains p s = true <-> occurs p s.
Proof.
  unfold occurs. induction s as [|d s IH]; simpl.
  - rewrite orb_false_r, startswith_spec. split.
    + intros [rest H]. exists [], rest. exact H.
    + intros [before [after H]]. destruct before; simpl in H.
      * now exists after.
      * discriminate.
  - rewrite orb_true_iff, IH.
    change (match p with
            | [] => true
            | c :: p' => (d =? c) && startswith s p'
            end) with (startswith (d :: s) p).
    rewrite startswith_spec. split.
    + intros [[rest H] | [before [after H]]].
      * exists [], rest. exact H.
      * exists (d :: before), after. simpl. now rewrite H.
    + intros [before [after H]]. destruct before as [|b before]; simpl in H.
      * left. now exists after.
      * right. injection H as _ H. now exists before, after.
Qed.

Lemma any_in_spec (xs : list pystr) (s : pystr) :
  any_in xs s = true <-> exists x, In x xs /\ occurs x s.
Proof.
  unfold any_in. rewrite existsb_exists.
  split; intros [x [Hin H]]; exists x; split; trivial;
    now apply contains_spec.
Qed.

Lemma startswith_map (f : codepoint -> codepoint) (s p : pystr) :
  startswith s p = true ->
  startswith (List.map f s) (List.map f p) = true.
Proof.
  rewrite !startswith_spec. intros [rest ->].
  exists (List.map f rest). apply List.map_app.
Qed.



End StringFacts.

(* ================================================================== *)
(** * The conditions of test_configs *)
(* ================================================================== *)

Import TestConditions.

Section ConditionFacts.

Variable normalize : pystr -> pystr.

Lemma cond_01x_value (name : pystr) (w : world) :
  value (cond_01x normalize name) w =
  PyBool (startswith (normalize name) (u "01x")
          && endswith name (u ".xlsx")).
Proof.
  unfold cond_01x, py_and, bind, ret, value.
  destruct (startswith (normalize name) (u "01x")); reflexivity.
Qed.

Lemma cond_zalishki_value (name : pystr) (w : world) :
  value (cond_zalishki normalize name) w =
  PyBool ((weekday (today w) =? 4)%Z && zalishki_test normalize name).
Proof.
  unfold cond_zalishki, py_and, bind, ret, value, weekday_now. simpl.
  destruct (weekday (today w) =? 4)%Z; reflexivity.
Qed.

Lemma cond_zalishki_effect (name : pystr) (w : world) :
  effect (cond_zalishki normalize name) w = w.
Proof.
  unfold cond_zalishki, py_and, bind, ret, effect, weekday_now. simpl.
  destruct (weekday (today w) =? 4)%Z; reflexivity.
Qed.

Lemma cond_aktivi_value (name : pystr) (w : world) :
  value (cond_aktivi normalize name) w =
  PyBool (aktivi_test normalize name).
Proof. reflexivity. Qed.

End ConditionFacts.




(** In the loop of [test_real_files] the condition is handed the
    normalized name, so there the suffix test sees the lower-cased
    name: the same file is a match. *)
Example uppercase_suffix_through_the_loop :
  value (file_matches Normalizer.normalize_filename_for_comparison
           [cond_01x Normalizer.normalize_filename_for_comparison]
           (u "01X_Баланс.XLSX")) friday = true.
Proof. vm_compute. reflexivity. Qed.

(** The two scenarios of the specification (section 8). *)
Example scenario_01x_xlsx :
  value (cond_01x Normalizer.normalize_filename_for_comparison
           (u "01X_Баланс.xlsx")) friday = PyBool true.
Proof. vm_compute. reflexivity. Qed.

Example scenario_01x_xls :
  value (cond_01x Normalizer.normalize_filename_for_comparison
           (u "01X_Баланс.xls")) friday = PyBool false.
Proof. vm_compute. reflexivity. Qed.

(** C2: the condition for "залишки на рах вкл" is false whenever the
    weekday of the evaluation instant is not 4 (Friday), whatever the
    name; on a Friday it is the substring test, which holds exactly when
    one of the two spellings occurs in the normalized name; and the
    evaluation changes nothing. *)
Theorem C2_day_gated_friday_only :
  forall (normalize : pystr -> pystr) (name : pystr) (w : world),
    (weekday (today w) <> 4%Z ->
       value (cond_zalishki normalize name) w = PyBool false) /\
    (weekday (today w) = 4%Z ->
       value (cond_zalishki normalize name) w
       = PyBool (zalishki_test normalize name)) /\
    (zalishki_test normalize name = true <->
       occurs (u "залишки на рах вкл") (normalize name) \/
       occurs (u "zalishki na rax vkl") (normalize name)) /\
    effect (cond_zalishki normalize name) w = w.
Proof.
  intros normalize name w. rewrite cond_zalishki_value. repeat split.
  - intros Hne. apply Z.eqb_neq in Hne. now rewrite Hne.
  - intros Heq. apply Z.eqb_eq in Heq. now rewrite Heq.
  - unfold zalishki_test. rewrite any_in_spec.
    intros [x [[<- | [<- | []]] H]]; [left | right]; exact H.
  - unfold zalishki_test. rewrite any_in_spec.
    intros [H | H]; eexists; (split; [| exact H]); simpl; auto.
  - apply cond_zalishki_effect.
Qed.

(** The weekday is always one of 0..6. *)
Lemma weekday_range (ordinal : Z) : (0 <= weekday ordinal < 7)%Z.
Proof. unfold weekday. apply Z.mod_pos_bound. lia. Qed.

(** C2 on a Wednesday and on a Friday, for a name that has the
    substring (section 8 of the specification). *)
Lemma C2_wednesday_and_friday :
  value (cond_zalishki Normalizer.normalize_filename_for_comparison
           (u "Zalishki na rax vkl 15.08.xlsx")) wednesday = PyBool false /\
  value (cond_zalishki Normalizer.normalize_filename_for_comparison
           (u "Zalishki na rax vkl 15.08.xlsx")) friday = PyBool true.
Proof.
  split.
  - apply (proj1 (C2_day_gated_friday_only
                    Normalizer.normalize_filename_for_comparison
                    (u "Zalishki na rax vkl 15.08.xlsx") wednesday)).
    vm_compute. discriminate.
  - apply (proj1 (proj2 (C2_day_gated_friday_only
                           Normalizer.normalize_filename_for_comparison
                           (u "Zalishki na rax vkl 15.08.xlsx") friday))).
    vm_compute. reflexivity.
Defined.

(* ================================================================== *)
(** * The matching loop of test_real_files *)
(* ================================================================== *)

Section MatchingFacts.

Variable normalize : pystr -> pystr.

Lemma stable_cond_01x : stable (cond_01x normalize).
Proof.
  intros name w. split.
  - unfold cond_01x, py_and, bind, ret, effect.
    destruct (startswith (normalize name) (u "01x")); reflexivity.
  - intros w' _. now rewrite !cond_01x_value.
Qed.

Lemma stable_cond_norm : stable (cond_norm normalize).
Proof. intros name w. split; [reflexivity | intros w' _; reflexivity]. Qed.

Lemma stable_cond_sr : stable (cond_sr normalize).
Proof. intros name w. split; [reflexivity | intros w' _; reflexivity]. Qed.

Lemma stable_cond_zalishki : stable (cond_zalishki normalize).
Proof.
  intros name w. split.
  - now rewrite cond_zalishki_effect.
  - intros w' Hw. rewrite !cond_zalishki_value. now rewrite Hw.
Qed.

Lemma stable_cond_aktivi : stable (cond_aktivi normalize).
Proof. intros name w. split; [reflexivity | intros w' _; reflexivity]. Qed.

(** What [any] answers at the head of a generator. *)
Lemma py_any_cons (g : IO pyval) (rest : list (IO pyval)) (w : world) :
  value (py_any (g :: rest)) w =
  truthy (value g w) || value (py_any rest) (effect g w).
Proof.
  unfold value, effect. cbn [py_any]. unfold bind.
  destruct (g w) as [v w']. cbn [fst snd].
  destruct (truthy v); reflexivity.
Qed.

Lemma py_any_cons_effect_today (g : IO pyval) (rest : list (IO pyval))
  (w : world) :
  today (effect g w) = today w ->
  (forall w', today (effect (py_any rest) w') = today w') ->
  today (effect (py_any (g :: rest)) w) = today w.
Proof.
  unfold effect. cbn [py_any]. unfold bind.
  destruct (g w) as [v w']. cbn [snd]. intros Hg Hrest.
  destruct (truthy v); [exact Hg |].
  now rewrite Hrest.
Qed.

(** Answers of stable conditions do not move with the world as long as
    the clock stands still. *)
Lemma existsb_stable (conditions : list condition) (n : pystr)
  (w w' : world) :
  Forall stable conditions ->
  today w' = today w ->
  existsb (fun cond => truthy (value (cond n) w')) conditions =
  existsb (fun cond => truthy (value (cond n) w)) conditions.
Proof.
  intros Hall Hw. induction Hall as [|cond l Hc _ IH]; [reflexivity |].
  cbn [existsb]. rewrite IH.
  destruct (Hc n w) as [_ Hv]. now rewrite (Hv w' Hw).
Qed.

Lemma py_any_stable (conditions : list condition) (n : pystr) :
  Forall stable conditions ->
  forall w,
    value (py_any (List.map (fun cond => cond n) conditions)) w =
    existsb (fun cond => truthy (value (cond n) w)) conditions /\
    today (effect (py_any (List.map (fun cond => cond n) conditions)) w)
    = today w.
Proof.
  intros Hall. induction Hall as [|cond l Hc Hl IH]; intros w.
  - split; reflexivity.
  - cbn [List.map existsb]. destruct (Hc n w) as [Ht _]. split.
    + rewrite py_any_cons. f_equal.
      rewrite (proj1 (IH _)). now apply existsb_stable.
    + apply py_any_cons_effect_today; [exact Ht |].
      intros w'. apply IH.
Qed.

Lemma file_matches_stable (conditions : list condition)
  (filename : pystr) (w : world) :
  Forall stable conditions ->
  value (file_matches normalize conditions filename) w =
  existsb (fun cond => truthy (value (cond (normalize filename)) w))
    conditions.
Proof. intros Hall. unfold file_matches. now apply py_any_stable. Qed.

(** Appending conditions never loses a match, whatever the conditions
    do: [any] has stopped before it reaches them. *)
Lemma py_any_app (gen extra : list (IO pyval)) (w : world) :
  value (py_any gen) w = true ->
  value (py_any (gen ++ extra)) w = true.
Proof.
  revert w. induction gen as [|g gen IH]; intros w.
  - discriminate.
  - cbn [app]. rewrite !py_any_cons, !orb_true_iff.
    intros [H | H]; [now left | right; now apply IH].
Qed.

(** The rule of [test_configs] is made of stable conditions as soon as
    the flexible conditions of [core.utils] are. *)
Lemma stable_test_conditions
  (create_flexible_condition : list pystr -> condition) :
  (forall aliases, stable (create_flexible_condition aliases)) ->
  Forall stable (test_conditions normalize create_flexible_condition).
Proof.
  intros Hflex. unfold test_conditions.
  repeat (apply List.Forall_cons;
          [first [ apply Hflex | apply stable_cond_01x
                 | apply stable_cond_norm | apply stable_cond_zalishki
                 | apply stable_cond_aktivi | apply stable_cond_sr ] |]).
  apply List.Forall_nil.
Qed.

(** [matching_files] only ever lists files of the directory. *)
Lemma matching_files_sound (conditions : list condition)
  (real_files : list pystr) :
  forall w filename,
    In filename (value (matching_files normalize conditions real_files) w) ->
    In filename real_files.
Proof.
  induction real_files as [|x files IH]; intros w filename; [intros [] |].
  unfold value. cbn [matching_files]. unfold bind, ret.
  destruct (file_matches normalize conditions x w) as [hit w1].
  specialize (IH w1 filename). unfold value in IH.
  destruct (matching_files normalize conditions files w1) as [found w2].
  cbn [fst] in *. destruct hit; cbn [In]; intuition.
Qed.

End MatchingFacts.

(** C3: a file matches a rule exactly when at least one condition of the
    rule's list is true on the normalized name, and a condition added to
    the list (at its end, or anywhere among conditions that are
    stable) never turns a match into a miss. *)
Theorem C3_rule_matching_is_or :
  forall (normalize : pystr -> pystr) (conditions : list condition)
         (filename : pystr) (w : world),
    (Forall stable conditions ->
       (value (file_matches normalize conditions filename) w = true <->
          exists cond,
            In cond conditions /\
            truthy (value (cond (normalize filename)) w) = true)) /\
    (forall extra,
       value (file_matches normalize conditions filename) w = true ->
       value (file_matches normalize (conditions ++ extra) filename) w
       = true) /\
    (forall front back extra,
       conditions = front ++ back ->
       Forall stable conditions -> stable extra ->
       value (file_matches normalize conditions filename) w = true ->
       value (file_matches normalize (front ++ extra :: back) filename) w
       = true).
Proof.
  intros normalize conditions filename w. split; [| split].
  - intros Hall. rewrite file_matches_stable by exact Hall.
    apply existsb_exists.
  - intros extra. unfold file_matches. rewrite List.map_app.
    apply py_any_app.
  - intros front back extra -> Hall Hextra.
    assert (Hall' : Forall stable (front ++ extra :: back)).
    { apply Forall_app in Hall. destruct Hall as [Hf Hb].
      apply Forall_app. split; [exact Hf | now constructor]. }
    rewrite !file_matches_stable by assumption.
    rewrite !existsb_app. cbn [existsb]. rewrite !orb_true_iff.
    intros [H | H]; [now left | right; now right].
Qed.

(** C3 at a list of three of the conditions of [test_configs] and the
    file "aktivi_2025.xlsx", which only the third one accepts. *)
Lemma C3_three_conditions :
  let N := Normalizer.normalize_filename_for_comparison in
  let rule := [cond_01x N; cond_zalishki N; cond_aktivi N] in
  value (file_matches N rule (u "aktivi_2025.xlsx")) friday = true /\
  value (file_matches N (rule ++ [cond_sr N]) (u "aktivi_2025.xlsx")) friday
  = true.
Proof.
  intros N rule. split.
  - apply (proj1 (C3_rule_matching_is_or N rule (u "aktivi_2025.xlsx")
                    friday)).
    + apply List.Forall_cons; [apply stable_cond_01x |].
      apply List.Forall_cons; [apply stable_cond_zalishki |].
      apply List.Forall_cons; [apply stable_cond_aktivi |].
      apply List.Forall_nil.
    + exists (cond_aktivi N). split; [right; right; left; reflexivity |].
      vm_compute. reflexivity.
  - apply (proj1 (proj2 (C3_rule_matching_is_or N rule
                           (u "aktivi_2025.xlsx") friday))).
    vm_compute. reflexivity.
Defined.

(** C7: the diagnostic condition for "активи" returns what the pure
    substring test returns, because [print] returns [None]; its only
    trace is the line it prints, and replacing it by the pure test
    changes no match. *)
Theorem C7_diagnostic_condition_is_pure_predicate :
  forall (normalize : pystr -> pystr) (name : pystr) (w : world),
    value (cond_aktivi normalize name) w
    = PyBool (aktivi_test normalize name) /\
    value (print (aktivi_message normalize name)) w = PyNone /\
    (aktivi_test normalize name = true <->
       occurs (u "активи") (normalize name) \/
       occurs (u "aktivi") (normalize name)) /\
    effect (cond_aktivi normalize name) w
    = {| today := today w;
         stdout := stdout w ++ [aktivi_message normalize name] |} /\
    (forall front back filename,
       Forall stable (front ++ back) ->
       value (file_matches normalize
                (front ++ cond_aktivi normalize :: back) filename) w =
       value (file_matches normalize
                (front
                 ++ (fun n => ret (PyBool (aktivi_test normalize n)))
                 :: back) filename) w).
Proof.
  intros normalize name w. split; [| split; [| split; [| split]]].
  - reflexivity.
  - reflexivity.
  - unfold aktivi_test. rewrite any_in_spec. split.
    + intros [x [[<- | [<- | []]] H]]; [left | right]; exact H.
    + intros [H | H]; eexists; (split; [| exact H]); simpl; auto.
  - reflexivity.
  - intros front back filename Hall.
    apply Forall_app in Hall. destruct Hall as [Hf Hb].
    rewrite !file_matches_stable.
    + rewrite !existsb_app. reflexivity.
    + apply Forall_app. split; [exact Hf |]. constructor; [| exact Hb].
      intros n w0. split; [reflexivity | intros w' _; reflexivity].
    + apply Forall_app. split; [exact Hf |]. constructor; [| exact Hb].
      apply stable_cond_aktivi.
Qed.

(** C7 in a rule of three conditions, on a file only the diagnostic
    condition accepts. *)
Lemma C7_same_match_without_print :
  let N := Normalizer.normalize_filename_for_comparison in
  value (file_matches N [cond_01x N; cond_aktivi N; cond_sr N]
           (u "Aktivi 08.xlsx")) friday =
  value (file_matches N
           [cond_01x N; (fun n => ret (PyBool (aktivi_test N n))); cond_sr N]
           (u "Aktivi 08.xlsx")) friday.
Proof.
  intros N.
  apply (proj2 (proj2 (proj2 (proj2
           (C7_diagnostic_condition_is_pure_predicate N [] friday))))
           [cond_01x N] [cond_sr N] (u "Aktivi 08.xlsx")).
  apply List.Forall_cons; [apply stable_cond_01x |].
  apply List.Forall_cons; [apply stable_cond_sr |].
  apply List.Forall_nil.
Defined.

(* ================================================================== *)
(** * The normalizer of the specification *)
(* ================================================================== *)

Section NormalizerFacts.

Import Normalizer.

Lemma lower_cp_idem (c : codepoint) : lower_cp (lower_cp c) = lower_cp c.
Proof.
  unfold lower_cp.
  destruct (N.leb_spec 65 c), (N.leb_spec c 90), (N.leb_spec 1040 c),
    (N.leb_spec c 1071), (N.leb_spec 1024 c), (N.leb_spec c 1039);
    cbn [andb];
    repeat match goal with
           | |- context [N.leb ?a ?b] =>
               destruct (N.leb_spec a b); cbn [andb]
           end;
    try reflexivity; lia.
Qed.

(** Folding a lower-case code point gives a code point that both steps
    leave alone: the Latin images are lower-case and are not keys. *)
Lemma fold_layout_settled (y : codepoint) :
  lower_cp y = y -> settled (fold_layout y).
Proof.
  intros Hy. unfold settled, fold_layout, layout_table.
  cbn [lookup_alias].
  destruct (y =? 1072) eqn:E1;
    [apply N.eqb_eq in E1; subst; split; reflexivity |].
  destruct (y =? 1088) eqn:E2;
    [apply N.eqb_eq in E2; subst; split; reflexivity |].
  destruct (y =? 1089) eqn:E3;
    [apply N.eqb_eq in E3; subst; split; reflexivity |].
  destruct (y =? 1077) eqn:E4;
    [apply N.eqb_eq in E4; subst; split; reflexivity |].
  destruct (y =? 1093) eqn:E5;
    [apply N.eqb_eq in E5; subst; split; reflexivity |].
  rewrite E1, E2, E3, E4, E5. split; [exact Hy | reflexivity].
Qed.

Lemma char_step_settled (c : codepoint) : settled (fold_layout (lower_cp c)).
Proof. apply fold_layout_settled, lower_cp_idem. Qed.

Lemma settled_fixed (s : pystr) :
  Forall settled s -> List.map fold_layout (lower s) = s.
Proof.
  unfold lower. induction 1 as [|c s [Hl Hf] _ IH]; [reflexivity |].
  cbn [List.map]. now rewrite Hl, Hf, IH.
Qed.

Lemma collapse_spaces_one (c : codepoint) : collapse_spaces [c] = [c].
Proof. reflexivity. Qed.

Lemma collapse_spaces_two (c d : codepoint) (t : pystr) :
  collapse_spaces (c :: d :: t) =
  if (c =? 32) && (d =? 32) then collapse_spaces (d :: t)
  else c :: collapse_spaces (d :: t).
Proof. reflexivity. Qed.

Lemma collapse_spaces_head (d : codepoint) (t : pystr) :
  exists r, collapse_spaces (d :: t) = d :: r.
Proof.
  revert d. induction t as [|e t IH]; intros d.
  - now exists [].
  - rewrite collapse_spaces_two.
    destruct ((d =? 32) && (e =? 32)) eqn:E.
    + apply andb_true_iff in E. destruct E as [Hd He].
      apply N.eqb_eq in Hd, He. subst. apply IH.
    + eexists. reflexivity.
Qed.

Lemma collapse_spaces_Forall (P : codepoint -> Prop) (s : pystr) :
  Forall P s -> Forall P (collapse_spaces s).
Proof.
  induction s as [|c s IH]; intros H; [constructor |].
  destruct s as [|d t]; [exact H |].
  rewrite collapse_spaces_two. inversion H as [|? ? Hc Hs]; subst.
  destruct ((c =? 32) && (d =? 32)); [now apply IH |].
  constructor; [exact Hc | now apply IH].
Qed.

Lemma collapse_spaces_single_spaced (s : pystr) :
  single_spaced (collapse_spaces s).
Proof.
  induction s as [|c s IH]; [exact I |].
  destruct s as [|d t]; [exact I |].
  rewrite collapse_spaces_two.
  destruct ((c =? 32) && (d =? 32)) eqn:E; [exact IH |].
  destruct (collapse_spaces_head d t) as [r Hr].
  rewrite Hr in *. cbn [single_spaced]. split; [exact E | exact IH].
Qed.

Lemma collapse_spaces_fixed (s : pystr) :
  single_spaced s -> collapse_spaces s = s.
Proof.
  induction s as [|c s IH]; [reflexivity |].
  destruct s as [|d t]; [reflexivity |].
  cbn [single_spaced]. intros [E H].
  rewrite collapse_spaces_two, E. f_equal. now apply IH.
Qed.

Lemma single_spaced_app_l (a b : pystr) :
  single_spaced (a ++ b) -> single_spaced a.
Proof.
  induction a as [|c a IH]; [intros _; exact I |].
  destruct a as [|d a']; [intros _; exact I |].
  cbn [app single_spaced]. intros [E H]. split; [exact E |].
  apply IH. exact H.
Qed.

Lemma rstrip_underscores_prefix (s : pystr) :
  exists r, s = rstrip_underscores s ++ r.
Proof.
  induction s as [|c s [r IH]]; [now exists [] |].
  cbn [rstrip_underscores].
  destruct (rstrip_underscores s) as [|e t'].
  - destruct (c =? 95).
    + now exists (c :: s).
    + exists s. reflexivity.
  - exists r. cbn [app] in *. f_equal. exact IH.
Qed.

Lemma rstrip_underscores_idem (s : pystr) :
  rstrip_underscores (rstrip_underscores s) = rstrip_underscores s.
Proof.
  induction s as [|c s IH]; [reflexivity |].
  cbn [rstrip_underscores].
  destruct (rstrip_underscores s) as [|e t'] eqn:E.
  - destruct (c =? 95) eqn:Hc; [reflexivity |].
    cbn [rstrip_underscores]. now rewrite Hc.
  - change (rstrip_underscores (c :: e :: t')) with
      (match rstrip_underscores (e :: t') with
       | [] => if c =? 95 then [] else [c]
       | t'' => c :: t''
       end).
    now rewrite IH.
Qed.

Lemma rstrip_underscores_Forall (P : codepoint -> Prop) (s : pystr) :
  Forall P s -> Forall P (rstrip_underscores s).
Proof.
  intros H. destruct (rstrip_underscores_prefix s) as [r Hr].
  rewrite Hr in H. now apply Forall_app in H.
Qed.

Lemma normalize_settled (x : pystr) :
  Forall settled (normalize_filename_for_comparison x).
Proof.
  unfold normalize_filename_for_comparison, lower.
  apply rstrip_underscores_Forall, collapse_spaces_Forall.
  rewrite List.map_map. apply List.Forall_forall.
  intros c Hc. apply List.in_map_iff in Hc. destruct Hc as [c0 [<- _]].
  apply char_step_settled.
Qed.

Lemma normalize_single_spaced (x : pystr) :
  single_spaced (normalize_filename_for_comparison x).
Proof.
  unfold normalize_filename_for_comparison.
  set (y := collapse_spaces _).
  destruct (rstrip_underscores_prefix y) as [r Hr].
  apply (single_spaced_app_l _ r). rewrite <- Hr.
  apply collapse_spaces_single_spaced.
Qed.

Lemma normalize_idempotent (x : pystr) :
  normalize_filename_for_comparison (normalize_filename_for_comparison x)
  = normalize_filename_for_comparison x.
Proof.
  unfold normalize_filename_for_comparison at 1.
  rewrite (settled_fixed _ (normalize_settled x)).
  rewrite (collapse_spaces_fixed _ (normalize_single_spaced x)).
  unfold normalize_filename_for_comparison.
  apply rstrip_underscores_idem.
Qed.

End NormalizerFacts.

(** C6, as far as it holds: the normalizer of the specification is
    idempotent, and every condition of [test_configs] that looks at the
    normalized name only (the "норм" prefix, the Friday condition, the
    "активи" condition and the "sr" prefix) answers the same on a raw
    filename and on its normalized form. *)
Theorem C6_normalization_idempotent :
  let N := Normalizer.normalize_filename_for_comparison in
  (forall x, N (N x) = N x) /\
  (forall name w,
     value (cond_norm N (N name)) w = value (cond_norm N name) w /\
     value (cond_zalishki N (N name)) w = value (cond_zalishki N name) w /\
     value (cond_aktivi N (N name)) w = value (cond_aktivi N name) w /\
     value (cond_sr N (N name)) w = value (cond_sr N name) w).
Proof.
  intros N. split; [exact normalize_idempotent |].
  intros name w. rewrite !cond_zalishki_value, !cond_aktivi_value.
  unfold cond_norm, cond_sr, zalishki_test, aktivi_test, value, ret.
  cbn [fst]. unfold N. rewrite !normalize_idempotent.
  repeat split.
Qed.

(** C6, refuted for the 01X condition: it also tests the suffix of the
    name it is handed, so it rejects the raw name "01X_Баланс.XLSX" and
    accepts its normalized form. *)
Lemma C6_01x_differs_on_normalized_name :
  let N := Normalizer.normalize_filename_for_comparison in
  N (u "01X_Баланс.XLSX") = u "01x_бaлaнc.xlsx" /\
  value (cond_01x N (u "01X_Баланс.XLSX")) friday = PyBool false /\
  value (cond_01x N (N (u "01X_Баланс.XLSX"))) friday = PyBool true.
Proof. vm_compute. repeat split. Qed.

(* ================================================================== *)
(** * create_observers and validate_configuration *)
(* ================================================================== *)

Section ObserverFacts.

Import Main.

Variable h : host.

Lemma create_step_fst (st : create_state) (ic : nat * config) :
  fst (create_step h st ic) = fst st ++ started h ic.
Proof.
  destruct st as [obs log], ic as [i c]. unfold create_step, started.
  cbn [fst snd]. destruct (activate h i c); cbn [fst];
    [now rewrite app_nil_r | reflexivity | now rewrite app_nil_r].
Qed.

Lemma create_step_snd (st : create_state) (ic : nat * config) :
  snd (create_step h st ic) = snd st ++ [activation_record h ic].
Proof.
  destruct st as [obs log], ic as [i c].
  unfold create_step, activation_record.
  cbn [fst snd]. destruct (activate h i c); reflexivity.
Qed.

(** The loop treats the configurations one by one: what it builds is
    the concatenation of what each of them contributes. *)
Lemma create_fold (l : list (nat * config)) (st : create_state) :
  fold_left (create_step h) l st =
  (fst st ++ flat_map (started h) l,
   snd st ++ List.map (activation_record h) l).
Proof.
  revert st. induction l as [|ic l IH]; intros st.
  - cbn. rewrite !app_nil_r. now destruct st.
  - cbn [fold_left flat_map List.map]. rewrite IH.
    rewrite create_step_fst, create_step_snd.
    now rewrite <- !app_assoc.
Qed.

Lemma create_observers_fst (configs : list config) :
  fst (create_observers h configs) =
  flat_map (started h) (enumerate_from 0 configs).
Proof.
  unfold create_observers. rewrite create_fold. reflexivity.
Qed.

Lemma create_observers_snd (configs : list config) :
  snd (create_observers h configs) =
  (INFO, Creating_observers)
  :: List.map (activation_record h) (enumerate_from 0 configs)
  ++ [(INFO, Observers_created
               (length (fst (create_observers h configs)))
               (length configs))].
Proof.
  unfold create_observers. rewrite create_fold. reflexivity.
Qed.

Lemma in_enumerate_from {A} (l : list A) (i j : nat) (x : A) :
  In (j, x) (enumerate_from i l) <->
  (i <= j)%nat /\ nth_error l (j - i) = Some x.
Proof.
  revert i. induction l as [|y l IH]; intros i; cbn [enumerate_from].
  - split; [intros [] | intros [_ H]]. now destruct (j - i)%nat.
  - cbn [In]. rewrite IH. split.
    + intros [H | [Hle H]].
      * injection H as -> ->. split; [lia |].
        now replace (j - j)%nat with 0%nat by lia.
      * split; [lia |].
        replace (j - i)%nat with (S (j - S i)) by lia. exact H.
    + intros [Hle H]. destruct (Nat.eq_dec i j) as [->|Hne].
      * left. replace (j - j)%nat with 0%nat in H by lia.
        cbn in H. now injection H as ->.
      * right. split; [lia |].
        replace (j - i)%nat with (S (j - S i)) in H by lia. exact H.
Qed.

Lemma started_inv (ic : nat * config) (o : observer) (c : config) :
  In (o, c) (started h ic) ->
  c = snd ic /\ obs_id o = fst ic /\
  watch_dir c = Some (obs_path o) /\
  conditions c <> None /\
  path_exists h (obs_path o) = true /\
  start_error h (fst ic) = None /\
  activate h (fst ic) c = Started o (description_of (fst ic) c).
Proof.
  destruct ic as [i c0]. unfold started. cbn [fst snd].
  destruct (activate h i c0) as [p | o' d | p e] eqn:E;
    [intros [] | | intros []].
  intros [H | []]. injection H as <- <-.
  revert E. unfold activate.
  destruct (watch_dir c0) as [p|]; [| discriminate].
  destruct (conditions c0) as [conds|]; [| discriminate].
  destruct (path_exists h p) eqn:Hp; cbn [negb]; [| discriminate].
  destruct (start_error h i) as [e|] eqn:He; [discriminate |].
  intros E. injection E as <- <-. cbn [obs_id obs_path].
  repeat split; trivial. discriminate.
Qed.

Lemma started_ids (l : list config) (i : nat) (o : observer) (c : config) :
  In (o, c) (flat_map (started h) (enumerate_from i l)) ->
  (i <= obs_id o)%nat.
Proof.
  intros H. apply in_flat_map in H. destruct H as [[j c'] [Hin Hs]].
  apply in_enumerate_from in Hin. apply started_inv in Hs.
  cbn [fst] in Hs. lia.
Qed.

Lemma started_NoDup (l : list config) (i : nat) :
  List.NoDup
    (List.map (fun oc => obs_id (fst oc))
       (flat_map (started h) (enumerate_from i l))).
Proof.
  revert i. induction l as [|c l IH]; intros i; [constructor |].
  cbn [enumerate_from flat_map]. rewrite List.map_app.
  unfold started at 1. cbn [fst snd].
  destruct (activate h i c) as [p | o d | p e] eqn:E;
    cbn [List.map app]; try apply IH.
  constructor; [| apply IH]. cbn [fst].
  intros Hin. apply List.in_map_iff in Hin.
  destruct Hin as [[o' c'] [Hid Hin]]. cbn [fst] in Hid.
  apply started_ids in Hin.
  assert (Ho : In (o, c) (started h (i, c))).
  { unfold started. cbn [fst snd]. rewrite E. now left. }
  apply started_inv in Ho. cbn [fst] in Ho. lia.
Qed.

Lemma started_length (l : list config) (i : nat) :
  (length (flat_map (started h) (enumerate_from i l)) <= length l)%nat.
Proof.
  revert i. induction l as [|c l IH]; intros i; [cbn; lia |].
  cbn [enumerate_from flat_map]. rewrite length_app.
  specialize (IH (S i)). unfold started at 1.
  destruct (activate h (fst (i, c)) (snd (i, c))); cbn [length] in *; lia.
Qed.

End ObserverFacts.

Section ActivationFacts.

Import Main.

Lemma activate_ext (h h' : host) (i : nat) (c : config) :
  (forall p, watch_dir c = Some p -> path_exists h' p = path_exists h p) ->
  start_error h' i = start_error h i ->
  activate h' i c = activate h i c.
Proof.
  intros Hp Hs. unfold activate.
  destruct (watch_dir c) as [p|]; [| reflexivity].
  destruct (conditions c); [| reflexivity].
  now rewrite (Hp p eq_refl), Hs.
Qed.

Lemma activate_started (h : host) (i : nat) (c : config) (p : path) :
  watch_dir c = Some p -> conditions c <> None ->
  path_exists h p = true -> start_error h i = None ->
  activate h i c
  = Started {| obs_id := i; obs_path := p |} (description_of i c).
Proof.
  intros Hw Hc Hp Hs. unfold activate. rewrite Hw.
  destruct (conditions c); [| contradiction].
  now rewrite Hp, Hs.
Qed.

Lemma activate_skipped (h : host) (i : nat) (c : config) (p : path) :
  watch_dir c = Some p -> conditions c <> None ->
  path_exists h p = false ->
  activate h i c = Skipped p.
Proof.
  intros Hw Hc Hp. unfold activate. rewrite Hw.
  destruct (conditions c); [| contradiction].
  now rewrite Hp.
Qed.

Lemma in_enumerate_0 {A} (l : list A) (i : nat) (x : A) :
  In (i, x) (enumerate_from 0 l) <-> nth_error l i = Some x.
Proof.
  rewrite in_enumerate_from. replace (i - 0)%nat with i by lia.
  split; [now intros [_ H] | intros H; split; [lia | exact H]].
Qed.

Lemma flat_map_ext_on {A B} (f g : A -> list B) (l : list A) :
  (forall a, In a l -> f a = g a) -> flat_map f l = flat_map g l.
Proof.
  induction l as [|a l IH]; intros H; [reflexivity |].
  cbn [flat_map]. rewrite (H a (or_introl eq_refl)).
  f_equal. apply IH. intros b Hb. apply H. now right.
Qed.

(** A rule whose entry is well-formed, whose source exists and whose
    observer starts is in the list, whatever the other rules do. *)
Lemma create_observers_activates (h : host) (configs : list config)
  (i : nat) (c : config) (p : path) :
  nth_error configs i = Some c ->
  watch_dir c = Some p ->
  conditions c <> None ->
  path_exists h p = true ->
  start_error h i = None ->
  In ({| obs_id := i; obs_path := p |}, c) (fst (create_observers h configs)).
Proof.
  intros Hi Hw Hc Hp Hs. rewrite create_observers_fst. apply in_flat_map.
  exists (i, c). split; [now apply in_enumerate_0 |].
  unfold started. cbn [fst snd].
  rewrite (activate_started h i c p) by assumption. now left.
Qed.

End ActivationFacts.

(** C5: [create_observers] creates no observer for a configuration
    whose source directory does not exist and logs the warning for it;
    a configuration whose source exists and whose observer starts gets
    its observer whatever the other configurations do (a missing
    directory or an exception elsewhere stops nothing); every observer
    returned belongs to a configuration whose source directory exists,
    and no configuration has two. *)
Theorem C5_create_observers_skips_and_continues :
  forall (h : Main.host) (configs : list Main.config),
    let observers := fst (Main.create_observers h configs) in
    let log := snd (Main.create_observers h configs) in
    (forall i c p,
       nth_error configs i = Some c ->
       Main.watch_dir c = Some p ->
       Main.path_exists h p = false ->
       (forall o c', In (o, c') observers -> Main.obs_id o <> i) /\
       (Main.conditions c <> None ->
        In (Main.WARNING, Main.Skipping_missing_directory p) log)) /\
    (forall i c p,
       nth_error configs i = Some c ->
       Main.watch_dir c = Some p ->
       Main.conditions c <> None ->
       Main.path_exists h p = true ->
       Main.start_error h i = None ->
       In ({| Main.obs_id := i; Main.obs_path := p |}, c) observers) /\
    (forall o c,
       In (o, c) observers ->
       nth_error configs (Main.obs_id o) = Some c /\
       Main.watch_dir c = Some (Main.obs_path o) /\
       Main.path_exists h (Main.obs_path o) = true) /\
    List.NoDup (List.map (fun oc => Main.obs_id (fst oc)) observers) /\
    (length observers <= length configs)%nat.
Proof.
  intros h configs observers log. subst observers log.
  rewrite create_observers_snd, create_observers_fst.
  split; [| split; [| split; [| split]]].
  - intros i c p Hi Hw Hp. split.
    + intros o c' Hin Hid. apply in_flat_map in Hin.
      destruct Hin as [[j c''] [Hj Hs]].
      apply in_enumerate_0 in Hj. apply started_inv in Hs.
      cbn [fst snd] in Hs.
      destruct Hs as [-> [Hoj [Hw' [_ [Hp' _]]]]].
      assert (Hji : j = i) by lia. rewrite Hji, Hi in Hj.
      injection Hj as <-.
      rewrite Hw in Hw'. injection Hw' as ->. congruence.
    + intros Hc. right. apply in_or_app. left.
      apply List.in_map_iff. exists (i, c). split.
      * unfold activation_record. cbn [fst snd].
        now rewrite (activate_skipped h i c p).
      * now apply in_enumerate_0.
  - intros i c p Hi Hw Hc Hp Hs.
    rewrite <- create_observers_fst.
    now apply create_observers_activates.
  - intros o c Hin. apply in_flat_map in Hin.
    destruct Hin as [[j c'] [Hj Hs]].
    apply in_enumerate_0 in Hj. apply started_inv in Hs.
    cbn [fst snd] in Hs. destruct Hs as [-> [-> [Hw [_ [Hp _]]]]].
    auto.
  - apply started_NoDup.
  - apply started_length.
Qed.

(** C5 on two rules, the first of which points at a directory that does
    not exist: the second rule gets its observer all the same. *)
Lemma C5_second_rule_still_activated :
  In ({| Main.obs_id := 1; Main.obs_path := u "r:/in" |},
      rule_without_destination)
     (fst (Main.create_observers host_without_destination
             [rule_without_source; rule_without_destination])) /\
  In (Main.WARNING, Main.Skipping_missing_directory (u "r:/gone"))
     (snd (Main.create_observers host_without_destination
             [rule_without_source; rule_without_destination])).
Proof.
  split.
  - apply (proj1 (proj2 (C5_create_observers_skips_and_continues
                           host_without_destination
                           [rule_without_source; rule_without_destination]))
             1%nat rule_without_destination (u "r:/in"));
      [reflexivity | reflexivity | discriminate
      | vm_compute; reflexivity | reflexivity].
  - apply (proj1 (C5_create_observers_skips_and_continues
                    host_without_destination
                    [rule_without_source; rule_without_destination])
             0%nat rule_without_source (u "r:/gone"));
      [reflexivity | reflexivity | vm_compute; reflexivity | discriminate].
Defined.

(** C4, as the code has it: the configuration check never excludes a
    rule (when the path check fails it logs a warning and still
    answers [True]), and activation looks at the source directory only:
    two hosts that agree on the source directories of the rules
    activate the same rules, whatever the state of any destination
    directory, and a well-formed rule whose source exists and whose
    observer starts is activated. *)
Theorem C4_activation_checks_source_only :
  forall (h h' : Main.host) (k : Main.checks) (configs : list Main.config),
    (Main.check_error k = None ->
     exists records,
       Main.validate_configuration k = inr (true, records) /\
       (Main.validate_paths k
          (Main.get_watch_paths k
           ++ [(Main.DEST_BASE k, u "Базовая директория назначения");
               (Main.ICON_DIR k, u "Директория с иконкой")]) = false ->
        In (Main.WARNING, Main.Problems_but_continue) records)) /\
    ((forall c p, In c configs -> Main.watch_dir c = Some p ->
                  Main.path_exists h' p = Main.path_exists h p) ->
     (forall i, Main.start_error h' i = Main.start_error h i) ->
     Main.create_observers h' configs = Main.create_observers h configs) /\
    (forall i c p,
       nth_error configs i = Some c ->
       Main.watch_dir c = Some p ->
       Main.conditions c <> None ->
       Main.path_exists h p = true ->
       Main.start_error h i = None ->
       In ({| Main.obs_id := i; Main.obs_path := p |}, c)
          (fst (Main.create_observers h configs))).
Proof.
  intros h h' k configs. split; [| split].
  - intros Hk. unfold Main.validate_configuration. rewrite Hk.
    eexists. split; [reflexivity |].
    intros Hv. rewrite Hv. right. now left.
  - intros Hp Hs.
    assert (Hact : forall ic, In ic (Main.enumerate_from 0 configs) ->
                              Main.activate h' (fst ic) (snd ic)
                              = Main.activate h (fst ic) (snd ic)).
    { intros [i c] Hin. cbn [fst snd]. apply activate_ext; [| apply Hs].
      intros p Hw. apply (Hp c p); [| exact Hw].
      apply in_enumerate_0 in Hin. now apply nth_error_In in Hin. }
    unfold Main.create_observers. rewrite !create_fold. cbn [fst snd].
    rewrite (flat_map_ext_on (started h') (started h)).
    + rewrite (List.map_ext_in (activation_record h')
                 (activation_record h)); [reflexivity |].
      intros ic Hin. unfold activation_record. now rewrite Hact.
    + intros ic Hin. unfold started. now rewrite Hact.
  - intros i c p. apply create_observers_activates.
Qed.

(** C4 on the rule whose destination is missing: it is activated. *)
Lemma C4_rule_activated_without_destination :
  In ({| Main.obs_id := 0; Main.obs_path := u "r:/in" |},
      rule_without_destination)
     (fst (Main.create_observers host_without_destination
             [rule_without_destination])).
Proof.
  apply (proj2 (proj2 (C4_activation_checks_source_only
                         host_without_destination host_without_destination
                         checks_without_destination
                         [rule_without_destination]))
           0%nat rule_without_destination (u "r:/in"));
    [reflexivity | reflexivity | discriminate
    | vm_compute; reflexivity | reflexivity].
Defined.

(** C4, refuted as stated: the destination "r:/out" of the rule does not
    exist and the path check reports it, yet the configuration check
    answers [True] and the rule gets its observer. *)
Lemma C4_missing_destination_still_activated :
  Main.dest_dir rule_without_destination = Some (u "r:/out") /\
  Main.path_exists host_without_destination (u "r:/out") = false /\
  Main.validate_configuration checks_without_destination
  = inr (true, [(Main.INFO, Main.Checking_configuration);
                (Main.WARNING, Main.Problems_but_continue)]) /\
  fst (Main.create_observers host_without_destination
         [rule_without_destination])
  = [({| Main.obs_id := 0; Main.obs_path := u "r:/in" |},
      rule_without_destination)].
Proof. vm_compute. repeat split. Qed.

(* ================================================================== *)
(** * main *)
(* ================================================================== *)

Section MainFacts.

Import Main.





















End MainFacts.




(** The quiet run: the console loop ends when the signal handler has
    cleared the flag, and [main] returns 0. *)
Example quiet_run :
  fst (Main.main quiet_env Main.initial) = Main.Return 0.
Proof. vm_compute. reflexivity. Qed.

(* ================================================================== *)
(** * TrayApp.quit_app *)
(* ================================================================== *)

(** C10: [quit_app] writes [config.settings.RUNNING] and the [running]
    attribute of the tray application, and nothing of the module
    [main]: its [RUNNING] flag is what it was, so when it was set
    before the call, the loop of [background_monitoring] still takes
    its next turn and the console loop of [main] still sleeps on. *)
Theorem C10_quit_app_leaves_main_RUNNING :
  forall (d : Notifications.desktop) (icon_stop_error : option exception)
         (p : Tray.process),
    let p' := Tray.quit_app d icon_stop_error p in
    Tray.main_globals p' = Tray.main_globals p /\
    Tray.settings_RUNNING p' = Some false /\
    Tray.running (Tray.app p') = false /\
    (Main.RUNNING (Tray.main_globals p) = true ->
     Main.RUNNING (Tray.main_globals p') = true /\
     (forall health_interval heartbeat_interval counter,
        Main.background_turn health_interval heartbeat_interval counter
          (Tray.main_globals p') <> Main.Leave) /\
     (forall ticks st,
        Main.module_globals st = Tray.main_globals p' ->
        Main.console_wait (S ticks) st = Main.console_wait ticks st)).
Proof.
  intros d icon_stop_error p p'.
  assert (Hg : Tray.main_globals p' = Tray.main_globals p).
  { subst p'. unfold Tray.quit_app.
    destruct (Tray.icon (Tray.app p)), icon_stop_error; reflexivity. }
  split; [exact Hg |]. split; [| split].
  - subst p'. unfold Tray.quit_app.
    destruct (Tray.icon (Tray.app p)), icon_stop_error; reflexivity.
  - subst p'. unfold Tray.quit_app.
    destruct (Tray.icon (Tray.app p)), icon_stop_error; reflexivity.
  - intros Hr. rewrite Hg. split; [exact Hr |]. split.
    + intros hi bi k. unfold Main.background_turn. rewrite Hr.
      discriminate.
    + intros ticks st Hst. cbn [Main.console_wait].
      rewrite Hst, Hr. now destruct ticks.
Qed.

(** C10 on a process whose flags are all set: after [quit_app] the flag
    of [main] is still set, the other two are cleared. *)
Lemma C10_running_process :
  let p' := Tray.quit_app
              {| Notifications.winotify_available := true;
                 Notifications.show_raises := false |}
              None running_process in
  Main.RUNNING (Tray.main_globals p') = true /\
  Tray.settings_RUNNING p' = Some false /\
  Tray.running (Tray.app p') = false.
Proof.
  intros p'.
  destruct (C10_quit_app_leaves_main_RUNNING
              {| Notifications.winotify_available := true;
                 Notifications.show_raises := false |}
              None running_process) as [_ [Hs [Hr Hm]]].
  split; [| split; [exact Hs | exact Hr]].
  apply Hm. reflexivity.
Defined.

(* ================================================================== *)
(** * The copy action of the specification *)
(* ================================================================== *)

Section CopyFacts.

Import CopyAction.

Lemma digits_inj (d d' : Decimal.uint) : digits d = digits d' -> d = d'.
Proof.
  revert d'. induction d; destruct d'; cbn [digits]; intros H;
    try discriminate; try reflexivity;
    injection H as H; f_equal; now apply IHd.
Qed.

Lemma str_of_N_inj (a b : N) : str_of_N a = str_of_N b -> a = b.
Proof.
  unfold str_of_N. intros H. apply digits_inj in H.
  now apply DecimalN.Unsigned.to_uint_inj.
Qed.

Lemma suffixed_inj (name : pystr) (a b : N) :
  suffixed name a = suffixed name b -> a = b.
Proof.
  unfold suffixed. intros H.
  apply app_inv_head in H. apply app_inv_head in H.
  now apply str_of_N_inj.
Qed.

Lemma suffixed_ne (name : pystr) (stamp : N) : suffixed name stamp <> name.
Proof.
  unfold suffixed. intros H.
  rewrite <- (app_nil_r name) in H at 2.
  apply app_inv_head in H. discriminate H.
Qed.

Lemma free_name_None (dest : directory) (name : pystr) (tries : nat) :
  forall stamp,
    free_name dest name stamp tries = None ->
    forall i, (i < tries)%nat ->
              is_Some (dest !! suffixed name (stamp + N.of_nat i)).
Proof.
  induction tries as [|k IH]; intros stamp H i Hi; [lia |].
  cbn [free_name] in H.
  destruct (dest !! suffixed name stamp) as [old|] eqn:E; [| discriminate].
  destruct i as [|i].
  - rewrite N.add_0_r, E. eauto.
  - replace (stamp + N.of_nat (S i)) with (N.succ stamp + N.of_nat i)
      by lia.
    apply IH; [exact H | lia].
Qed.

Lemma free_name_Some (dest : directory) (name : pystr) (tries : nat) :
  forall stamp candidate,
    free_name dest name stamp tries = Some candidate ->
    dest !! candidate = None /\
    exists stamp', candidate = suffixed name stamp'.
Proof.
  induction tries as [|k IH]; intros stamp candidate H; [discriminate |].
  cbn [free_name] in H.
  destruct (dest !! suffixed name stamp) as [old|] eqn:E.
  - now apply IH in H.
  - injection H as <-. split; [exact E | now exists stamp].
Qed.

(** A directory cannot hold more candidates than it has files. *)
Lemma candidates_bound (dest : directory) (name : pystr) (stamp : N)
  (n : nat) :
  (forall i, (i < n)%nat ->
             is_Some (dest !! suffixed name (stamp + N.of_nat i))) ->
  (n <= size dest)%nat.
Proof.
  intros H.
  set (f := fun i : nat => suffixed name (stamp + N.of_nat i)).
  assert (Hnd : NoDup (f <$> seq 0 n)).
  { apply NoDup_fmap_2_strong; [| apply NoDup_seq].
    intros i j _ _ Hij. apply suffixed_inj in Hij. lia. }
  assert (Hsub : list_to_set (C := gset pystr) (f <$> seq 0 n) ⊆ dom dest).
  { intros x Hx. apply elem_of_list_to_set in Hx.
    apply list_elem_of_fmap in Hx. destruct Hx as [i [-> Hi]].
    apply elem_of_seq in Hi. apply elem_of_dom. apply H. lia. }
  apply subseteq_size in Hsub.
  rewrite size_list_to_set in Hsub by exact Hnd.
  rewrite length_fmap, length_seq, size_dom in Hsub. exact Hsub.
Qed.

(** The retry loop always finds a free name. *)
Lemma free_name_total (dest : directory) (name : pystr) (stamp : N) :
  is_Some (free_name dest name stamp (S (size dest))).
Proof.
  destruct (free_name dest name stamp (S (size dest))) eqn:E; [eauto |].
  pose proof (candidates_bound dest name stamp (S (size dest))
                (free_name_None dest name _ stamp E)).
  lia.
Qed.

End CopyFacts.

(** C8: when the destination already holds a file of the name, the
    copy is written under a different, suffixed name that was free, the
    file that was there keeps its bytes, as does every other file of
    the directory, and the conflict is logged; the copy action never
    fails to find such a name. *)
Theorem C8_copy_never_overwrites :
  forall (dest : gmap pystr (list N)) (name : pystr)
         (content old : list N) (now : N),
    dest !! name = Some old ->
    exists r,
      CopyAction.copy_file dest name content now = Some r /\
      CopyAction.destination_path r <> name /\
      (exists stamp,
         CopyAction.destination_path r = CopyAction.suffixed name stamp) /\
      dest !! CopyAction.destination_path r = None /\
      CopyAction.destination_after r !! CopyAction.destination_path r
      = Some content /\
      CopyAction.destination_after r !! name = Some old /\
      (forall other bytes,
         dest !! other = Some bytes ->
         CopyAction.destination_after r !! other = Some bytes) /\
      CopyAction.conflict_logged r = true.
Proof.
  intros dest name content old now Hold.
  unfold CopyAction.copy_file. rewrite Hold.
  destruct (free_name_total dest name now) as [candidate Hc].
  rewrite Hc. apply free_name_Some in Hc.
  destruct Hc as [Hfree [stamp ->]].
  eexists. split; [reflexivity |].
  cbn [CopyAction.destination_path CopyAction.destination_after
       CopyAction.conflict_logged].
  split; [apply suffixed_ne |].
  split; [now exists stamp |].
  split; [exact Hfree |].
  split; [apply lookup_insert_eq |].
  split.
  - rewrite lookup_insert_ne; [exact Hold | apply suffixed_ne].
  - split; [| reflexivity].
    intros other bytes Ho. rewrite lookup_insert_ne; [exact Ho |].
    intros <-. congruence.
Qed.

(** C8 on the scenario of the specification: the destination holds
    "report.xlsx" and another "report.xlsx" is copied. *)
Lemma C8_report_scenario :
  exists r,
    CopyAction.copy_file reports (u "report.xlsx") [1; 2] 20250815
    = Some r /\
    CopyAction.destination_path r <> u "report.xlsx" /\
    CopyAction.destination_after r !! u "report.xlsx"
    = Some [80; 75; 3; 4].
Proof.
  destruct (C8_copy_never_overwrites reports (u "report.xlsx") [1; 2]
              [80; 75; 3; 4] 20250815 (lookup_singleton_eq _ _))
    as [r [H1 [H2 [_ [_ [_ [H3 _]]]]]]].
  exists r. split; [exact H1 | split; [exact H2 | exact H3]].
Defined.

(* ================================================================== *)
(** * test_real_files *)
(* ================================================================== *)

Section RealFilesFacts.

Import RealFiles.

Variable normalize : pystr -> pystr.
Variable fs : Main.path -> node.

Lemma file_matches_today (conditions : list condition) (filename : pystr)
  (w : world) :
  Forall stable conditions ->
  today (effect (file_matches normalize conditions filename) w) = today w.
Proof. intros Hall. unfold file_matches. now apply py_any_stable. Qed.

Lemma matching_files_filter (conditions : list condition)
  (files : list pystr) :
  Forall stable conditions ->
  forall w,
    value (matching_files normalize conditions files) w =
    List.filter
      (fun filename =>
         existsb (fun cond => truthy (value (cond (normalize filename)) w))
           conditions) files.
Proof.
  intros Hall. induction files as [|x files IH]; intros w; [reflexivity |].
  pose proof (file_matches_stable normalize conditions x w Hall) as Hv.
  pose proof (file_matches_today conditions x w Hall) as Ht.
  unfold value, effect in *. cbn [matching_files List.filter].
  unfold bind, ret.
  destruct (file_matches normalize conditions x w) as [hit w1].
  cbn [fst snd] in Hv, Ht. specialize (IH w1).
  destruct (matching_files normalize conditions files w1) as [found w2].
  cbn [fst] in *. rewrite <- Hv.
  assert (Hf : found =
               List.filter
                 (fun filename =>
                    existsb
                      (fun cond =>
                         truthy (fst (cond (normalize filename) w)))
                      conditions) files).
  { rewrite IH. apply List.filter_ext. intros f.
    exact (existsb_stable conditions (normalize f) w w1 Hall Ht). }
  destruct hit; [f_equal |]; exact Hf.
Qed.

Lemma in_found_lines (file : pystr) (found : list pystr) :
  In (Matching_file file) (found_lines found) -> In file found.
Proof.
  destruct found as [|x found]; cbn [found_lines].
  - intros [H | []]. discriminate.
  - intros [H | H]; [discriminate |].
    apply List.in_map_iff in H. destruct H as [y [Hy Hin]].
    now injection Hy as <-.
Qed.

Lemma in_real_files (file : pystr) (entries : list (pystr * bool)) :
  In file (real_files entries) <-> In (file, true) entries.
Proof.
  unfold real_files. rewrite List.in_map_iff. split.
  - intros [[name is_file] [Hn Hin]]. cbn [fst] in Hn. subst name.
    apply List.filter_In in Hin. destruct Hin as [Hin Hb].
    cbn [snd] in Hb. now subst is_file.
  - intros Hin. exists (file, true). split; [reflexivity |].
    apply List.filter_In. split; [exact Hin | reflexivity].
Qed.

Lemma visit_sound (configs : list Main.config) :
  forall w file,
    In (Matching_file file) (fst (fst (visit normalize fs configs w))) ->
    exists config watch_dir entries,
      In config configs /\
      Main.watch_dir config = Some watch_dir /\
      fs watch_dir = Directory entries /\
      In (file, true) entries.
Proof.
  induction configs as [|config rest IH]; intros w file; [intros [] |].
  cbn [visit].
  destruct (Main.watch_dir config) as [watch_dir|] eqn:Hw; [| intros []].
  destruct (Main.conditions config) as [conditions|] eqn:Hc; [| intros []].
  destruct (fs watch_dir) as [| | entries] eqn:Hfs.
  - unfold bind, ret. destruct (visit normalize fs rest w) as [r w1] eqn:Hr.
    cbn [fst]. intros [H | H]; [discriminate |].
    specialize (IH w file). rewrite Hr in IH.
    destruct (IH H) as [c [d [es [Hin Hrest]]]].
    exists c, d, es. split; [now right | exact Hrest].
  - cbn [ret fst]. intros [H | []]. discriminate.
  - unfold bind, ret.
    pose proof (matching_files_sound normalize conditions
                  (real_files entries) w) as Hsound.
    unfold value in Hsound.
    destruct (matching_files normalize conditions (real_files entries) w)
      as [found w1].
    destruct (visit normalize fs rest w1) as [r w2] eqn:Hr.
    cbn [fst] in *. intros [H | H]; [discriminate |].
    apply in_app_or in H. destruct H as [H | H].
    + apply in_found_lines in H. apply Hsound in H.
      apply in_real_files in H.
      exists config, watch_dir, entries.
      split; [now left | auto].
    + specialize (IH w1 file). rewrite Hr in IH.
      destruct (IH H) as [c [d [es [Hin Hrest]]]].
      exists c, d, es. split; [now right | exact Hrest].
Qed.

Lemma visit_complete (configs : list Main.config) :
  Forall (passable fs) configs ->
  forall w,
    snd (fst (visit normalize fs configs w)) = None /\
    forall config watch_dir,
      In config configs ->
      Main.watch_dir config = Some watch_dir ->
      (fs watch_dir = Absent /\
       In (Missing_directory watch_dir)
          (fst (fst (visit normalize fs configs w)))) \/
      (fs watch_dir <> Absent /\
       In (Directory_header watch_dir)
          (fst (fst (visit normalize fs configs w)))).
Proof.
  induction 1 as [|config rest [d [Hw [Hc Hn]]] _ IH]; intros w.
  - split; [reflexivity | intros ? ? []].
  - cbn [visit]. rewrite Hw.
    destruct (Main.conditions config) as [conditions|]; [| contradiction].
    destruct (fs d) as [| | entries] eqn:Hfs; [| contradiction |].
    + unfold bind, ret. specialize (IH w).
      destruct (visit normalize fs rest w) as [r w1]. cbn [fst snd] in *.
      destruct IH as [He Hall]. split; [exact He |].
      intros c wd [<- | Hin] Hwd.
      * rewrite Hw in Hwd. injection Hwd as <-.
        left. split; [exact Hfs | now left].
      * destruct (Hall c wd Hin Hwd) as [[Ha Hi] | [Ha Hi]];
          [left | right]; (split; [exact Ha | now right]).
    + unfold bind, ret.
      destruct (matching_files normalize conditions (real_files entries) w)
        as [found w1].
      specialize (IH w1).
      destruct (visit normalize fs rest w1) as [r w2]. cbn [fst snd] in *.
      destruct IH as [He Hall]. split; [exact He |].
      intros c wd [<- | Hin] Hwd.
      * rewrite Hw in Hwd. injection Hwd as <-.
        right. split; [now rewrite Hfs | now left].
      * destruct (Hall c wd Hin Hwd) as [[Ha Hi] | [Ha Hi]];
          [left | right];
          (split; [exact Ha | right; apply in_or_app; now right]).
Qed.

Lemma visit_aborts (front : list Main.config) (bad : Main.config)
  (rest : list Main.config) :
  Main.watch_dir bad = None \/ Main.conditions bad = None ->
  forall w,
    visit normalize fs (front ++ bad :: rest) w
    = visit normalize fs (front ++ [bad]) w /\
    snd (fst (visit normalize fs (front ++ bad :: rest) w)) <> None.
Proof.
  intros Hbad. induction front as [|config front IH]; intros w.
  - cbn [app visit].
    destruct (Main.watch_dir bad) as [watch_dir|];
      [| split; [reflexivity | discriminate]].
    destruct Hbad as [Hbad | Hbad]; [discriminate |]. rewrite Hbad.
    split; [reflexivity | discriminate].
  - cbn [app visit].
    destruct (Main.watch_dir config) as [watch_dir|];
      [| split; [reflexivity | discriminate]].
    destruct (Main.conditions config) as [conditions|];
      [| split; [reflexivity | discriminate]].
    destruct (fs watch_dir) as [| | entries].
    + unfold bind, ret. destruct (IH w) as [-> Hne].
      destruct (visit normalize fs (front ++ [bad]) w) as [r w1].
      split; [reflexivity | exact Hne].
    + split; [reflexivity | discriminate].
    + unfold bind, ret.
      destruct (matching_files normalize conditions (real_files entries) w)
        as [found w1].
      destruct (IH w1) as [-> Hne].
      destruct (visit normalize fs (front ++ [bad]) w1) as [r w2].
      split; [reflexivity | exact Hne].
Qed.

End RealFilesFacts.

Section RealFilesRun.

Import RealFiles.

Variable normalize : pystr -> pystr.
Variable fs : Main.path -> node.

Lemma visit_no_end_banner (configs : list Main.config) :
  forall w, ~ In End_banner (fst (fst (visit normalize fs configs w))).
Proof.
  induction configs as [|config rest IH]; intros w; [intros [] |].
  cbn [visit].
  destruct (Main.watch_dir config) as [watch_dir|]; [| intros []].
  destruct (Main.conditions config) as [conditions|]; [| intros []].
  destruct (fs watch_dir) as [| | entries].
  - unfold bind, ret. specialize (IH w).
    destruct (visit normalize fs rest w) as [r w1]. cbn [fst] in *.
    intros [H | H]; [discriminate | now apply IH].
  - cbn [ret fst]. intros [H | []]. discriminate.
  - unfold bind, ret.
    destruct (matching_files normalize conditions (real_files entries) w)
      as [found w1].
    specialize (IH w1).
    destruct (visit normalize fs rest w1) as [r w2]. cbn [fst] in *.
    intros [H | H]; [discriminate |].
    apply in_app_or in H. destruct H as [H | H]; [| now apply IH].
    destruct found as [|x found]; cbn [found_lines] in H.
    + destruct H as [H | []]. discriminate.
    + destruct H as [H | H]; [discriminate |].
      apply List.in_map_iff in H. destruct H as [y [Hy _]]. discriminate.
Qed.

Lemma test_real_files_value (configs : list Main.config) (w : world) :
  value (test_real_files normalize fs configs) w =
  (Banner :: fst (fst (visit normalize fs configs w))
   ++ match snd (fst (visit normalize fs configs w)) with
      | None => [End_banner]
      | Some _ => []
      end,
   snd (fst (visit normalize fs configs w))).
Proof.
  unfold test_real_files, value, bind, ret.
  destruct (visit normalize fs configs w) as [r w1]. reflexivity.
Qed.

End RealFilesRun.

(** X1: the matching files of a directory are exactly its files that
    satisfy at least one condition on their normalized name, in the
    order of the directory. *)
Theorem X1_matching_files_is_filter :
  forall (normalize : pystr -> pystr) (conditions : list condition)
         (real_files : list pystr) (w : world),
    Forall stable conditions ->
    value (matching_files normalize conditions real_files) w =
    List.filter
      (fun filename =>
         existsb (fun cond => truthy (value (cond (normalize filename)) w))
           conditions) real_files.
Proof.
  intros normalize conditions real_files w Hall.
  now apply matching_files_filter.
Qed.

(** X1 on three files and the conditions for "01x" and "sr". *)
Lemma X1_three_files :
  value (matching_files lower [cond_01x lower; cond_sr lower]
           [u "01X_a.xlsx"; u "notes.txt"; u "SR_1.txt"]) friday =
  List.filter
    (fun filename =>
       existsb (fun cond => truthy (value (cond (lower filename)) friday))
         [cond_01x lower; cond_sr lower])
    [u "01X_a.xlsx"; u "notes.txt"; u "SR_1.txt"].
Proof.
  apply (X1_matching_files_is_filter lower [cond_01x lower; cond_sr lower]
           [u "01X_a.xlsx"; u "notes.txt"; u "SR_1.txt"] friday).
  apply List.Forall_cons; [apply stable_cond_01x |].
  apply List.Forall_cons; [apply stable_cond_sr | apply List.Forall_nil].
Defined.

(** X2: a file that [test_real_files] reports as matching is an entry
    of a directory some configuration watches, and an entry for which
    [is_file()] holds: subdirectories and files of other directories
    are never reported. *)
Theorem X2_only_files_of_watched_directories :
  forall (normalize : pystr -> pystr) (fs : Main.path -> RealFiles.node)
         (watch_configs : list Main.config) (w : world) (file : pystr),
    In (RealFiles.Matching_file file)
       (fst (value (RealFiles.test_real_files normalize fs watch_configs)
               w)) ->
    exists config watch_dir entries,
      In config watch_configs /\
      Main.watch_dir config = Some watch_dir /\
      fs watch_dir = RealFiles.Directory entries /\
      In (file, true) entries.
Proof.
  intros normalize fs configs w file. rewrite test_real_files_value.
  cbn [fst]. intros [H | H]; [discriminate |].
  apply in_app_or in H. destruct H as [H | H].
  - now apply (visit_sound normalize fs configs w file).
  - destruct (snd (fst (RealFiles.visit normalize fs configs w)));
      [destruct H | destruct H as [H | []]; discriminate].
Qed.

(** X2 on the sample directory: "01X_a.xlsx" is reported. *)
Lemma X2_sample_directory :
  exists config watch_dir entries,
    In config [sample_rule_gone; sample_rule] /\
    Main.watch_dir config = Some watch_dir /\
    sample_fs watch_dir = RealFiles.Directory entries /\
    In (u "01X_a.xlsx", true) entries.
Proof.
  apply (X2_only_files_of_watched_directories lower sample_fs
           [sample_rule_gone; sample_rule] friday (u "01X_a.xlsx")).
  vm_compute. right. right. right. right. left. reflexivity.
Defined.

(** X3: when every configuration has both keys and no watched path is
    something other than a directory, [test_real_files] ends without an
    exception, logs its closing banner, and leaves a line for every
    configuration: the error line for a directory that does not exist (the
    run goes on with the next one), the header line otherwise. *)
Theorem X3_well_formed_run_completes :
  forall (normalize : pystr -> pystr) (fs : Main.path -> RealFiles.node)
         (watch_configs : list Main.config) (w : world),
    Forall (passable fs) watch_configs ->
    let result := value (RealFiles.test_real_files normalize fs
                           watch_configs) w in
    snd result = None /\
    In RealFiles.End_banner (fst result) /\
    forall config watch_dir,
      In config watch_configs ->
      Main.watch_dir config = Some watch_dir ->
      (fs watch_dir = RealFiles.Absent /\
       In (RealFiles.Missing_directory watch_dir) (fst result)) \/
      (fs watch_dir <> RealFiles.Absent /\
       In (RealFiles.Directory_header watch_dir) (fst result)).
Proof.
  intros normalize fs configs w Hall result. subst result.
  rewrite test_real_files_value. cbn [fst snd].
  destruct (visit_complete normalize fs configs Hall w) as [He Hlines].
  rewrite He. split; [reflexivity |]. split.
  - right. apply in_or_app. right. now left.
  - intros config watch_dir Hin Hw.
    destruct (Hlines config watch_dir Hin Hw) as [[Ha Hi] | [Ha Hi]];
      [left | right];
      (split; [exact Ha | right; apply in_or_app; now left]).
Qed.

(** X3 on a missing directory followed by the sample directory. *)
Lemma X3_sample_run :
  snd (value (RealFiles.test_real_files lower sample_fs
                [sample_rule_gone; sample_rule]) friday) = None /\
  In RealFiles.End_banner
     (fst (value (RealFiles.test_real_files lower sample_fs
                    [sample_rule_gone; sample_rule]) friday)).
Proof.
  assert (H : Forall (passable sample_fs) [sample_rule_gone; sample_rule]).
  { apply List.Forall_cons.
    - exists (u "r:/gone"). split; [reflexivity |].
      split; [discriminate | vm_compute; discriminate].
    - apply List.Forall_cons; [| apply List.Forall_nil].
      exists (u "r:/in"). split; [reflexivity |].
      split; [discriminate | vm_compute; discriminate]. }
  destruct (X3_well_formed_run_completes lower sample_fs
              [sample_rule_gone; sample_rule] friday H) as [H1 [H2 _]].
  split; [exact H1 | exact H2].
Defined.

(** X4: a configuration without its [watch_dir] or [conditions] key ends
    [test_real_files] with an exception: nothing after it is looked at
    (the result does not depend on what follows), and the closing banner
    is not logged. *)
Theorem X4_missing_key_ends_the_run :
  forall (normalize : pystr -> pystr) (fs : Main.path -> RealFiles.node)
         (front : list Main.config) (bad : Main.config)
         (rest : list Main.config) (w : world),
    Main.watch_dir bad = None \/ Main.conditions bad = None ->
    let result := value (RealFiles.test_real_files normalize fs
                           (front ++ bad :: rest)) w in
    snd result <> None /\
    ~ In RealFiles.End_banner (fst result) /\
    result = value (RealFiles.test_real_files normalize fs (front ++ [bad]))
               w.
Proof.
  intros normalize fs front bad rest w Hbad result. subst result.
  rewrite !test_real_files_value.
  destruct (visit_aborts normalize fs front bad rest Hbad w) as [Heq Hne].
  rewrite <- Heq. cbn [fst snd]. split; [exact Hne |]. split; [| reflexivity].
  intros [H | H]; [discriminate |].
  apply in_app_or in H. destruct H as [H | H].
  - now apply visit_no_end_banner in H.
  - destruct (snd (fst (RealFiles.visit normalize fs
                          (front ++ bad :: rest) w)));
      [destruct H | contradiction].
Qed.

(** X4 on the sample directory followed by an entry without
    [conditions]: what comes after that entry does not matter. *)
Lemma X4_sample_run :
  value (RealFiles.test_real_files lower sample_fs
           ([sample_rule] ++ sample_rule_without_conditions
            :: [sample_rule_gone])) friday =
  value (RealFiles.test_real_files lower sample_fs
           ([sample_rule] ++ [sample_rule_without_conditions])) friday.
Proof.
  apply (proj2 (proj2 (X4_missing_key_ends_the_run lower sample_fs
                         [sample_rule] sample_rule_without_conditions
                         [sample_rule_gone] friday
                         (or_intror eq_refl)))).
Defined.

(* ================================================================== *)
(** * The order of the conditions *)
(* ================================================================== *)

Section OrderFacts.

Variable normalize : pystr -> pystr.

Lemma existsb_Permutation {A} (f : A -> bool) (l l' : list A) :
  Permutation l l' -> existsb f l = existsb f l'.
Proof.
  induction 1 as [| x l l' _ IH | x y l | l l' l'' _ IH1 _ IH2];
    cbn [existsb].
  - reflexivity.
  - now rewrite IH.
  - destruct (f x), (f y); reflexivity.
  - now rewrite IH1.
Qed.

Lemma silent_cond_01x : silent (cond_01x normalize).
Proof.
  intros name w. unfold cond_01x, py_and, bind, ret, effect.
  destruct (startswith (normalize name) (u "01x")); reflexivity.
Qed.

Lemma silent_cond_norm : silent (cond_norm normalize).
Proof. intros name w. reflexivity. Qed.

Lemma silent_cond_sr : silent (cond_sr normalize).
Proof. intros name w. reflexivity. Qed.

Lemma silent_cond_zalishki : silent (cond_zalishki normalize).
Proof. intros name w. apply cond_zalishki_effect. Qed.

(** Over conditions that leave the world alone, [any] answers at the
    first one that holds and hands the world on untouched. *)
Lemma py_any_silent_front (front : list condition) (rest : list (IO pyval))
  (n : pystr) (w : world) :
  Forall silent front ->
  py_any (List.map (fun cond => cond n) front ++ rest) w =
  if existsb (fun cond => truthy (value (cond n) w)) front
  then (true, w)
  else py_any rest w.
Proof.
  induction 1 as [|cond front Hc _ IH]; [reflexivity |].
  cbn [List.map app py_any existsb]. unfold bind.
  specialize (Hc n w). unfold effect in Hc. unfold value at 1.
  destruct (cond n w) as [v w']. cbn [fst snd] in *. subst w'.
  destruct (truthy v); [reflexivity | exact IH].
Qed.

End OrderFacts.

(** X5: for conditions that only read the clock and print, the order
    in which a rule lists its conditions does not change whether a file
    matches. *)
Theorem X5_condition_order_is_irrelevant :
  forall (normalize : pystr -> pystr) (conditions conditions' : list condition)
         (filename : pystr) (w : world),
    Forall stable conditions ->
    Permutation conditions conditions' ->
    value (file_matches normalize conditions filename) w =
    value (file_matches normalize conditions' filename) w.
Proof.
  intros normalize conditions conditions' filename w Hall Hperm.
  assert (Hall' : Forall stable conditions').
  { apply List.Forall_forall. intros c Hc.
    apply (proj1 (List.Forall_forall stable conditions) Hall).
    apply (Permutation_in c (Permutation_sym Hperm) Hc). }
  rewrite !file_matches_stable by assumption.
  now apply existsb_Permutation.
Qed.

(** X5 on two conditions in either order. *)
Lemma X5_two_conditions_swapped :
  value (file_matches lower [cond_01x lower; cond_aktivi lower]
           (u "Aktivi.txt")) friday =
  value (file_matches lower [cond_aktivi lower; cond_01x lower]
           (u "Aktivi.txt")) friday.
Proof.
  apply (X5_condition_order_is_irrelevant lower
           [cond_01x lower; cond_aktivi lower]
           [cond_aktivi lower; cond_01x lower] (u "Aktivi.txt") friday).
  - apply List.Forall_cons; [apply stable_cond_01x |].
    apply List.Forall_cons; [apply stable_cond_aktivi | apply List.Forall_nil].
  - apply perm_swap.
Defined.

(** X6: the diagnostic line for "активи" is printed only when the
    condition is reached.  After conditions that print nothing, it is
    not printed when one of them already holds; when none holds it is
    printed once, with the normalized name in it, whether or not the
    file then matches. *)
Theorem X6_diagnostic_line_only_when_reached :
  forall (normalize : pystr -> pystr) (front back : list condition)
         (filename : pystr) (w : world),
    Forall silent front ->
    let run := file_matches normalize
                 (front ++ cond_aktivi normalize :: back) filename in
    let printed :=
      {| today := today w;
         stdout := stdout w
                   ++ [aktivi_message normalize (normalize filename)] |} in
    ((exists cond, In cond front /\
                   truthy (value (cond (normalize filename)) w) = true) ->
     value run w = true /\ effect run w = w) /\
    ((forall cond, In cond front ->
                   truthy (value (cond (normalize filename)) w) = false) ->
     (aktivi_test normalize (normalize filename) = true ->
      value run w = true /\ effect run w = printed) /\
     (Forall silent back -> effect run w = printed)).
Proof.
  intros normalize front back filename w Hfront run printed.
  subst run printed. unfold file_matches, value, effect.
  rewrite List.map_app. cbn [List.map].
  rewrite (py_any_silent_front front _ (normalize filename) w Hfront).
  split.
  - intros Hex.
    assert (Hf : existsb
                   (fun cond => truthy (value (cond (normalize filename)) w))
                   front = true) by (apply existsb_exists; exact Hex).
    rewrite Hf. split; reflexivity.
  - intros Hnone.
    assert (Hf : existsb
                   (fun cond => truthy (value (cond (normalize filename)) w))
                   front = false).
    { apply not_true_is_false. intros Hex. apply existsb_exists in Hex.
      destruct Hex as [c [Hin Hc]]. pose proof (Hnone c Hin) as Hn.
      unfold value in Hn, Hc. cbn beta in Hn, Hc.
      rewrite Hn in Hc. discriminate Hc. }
    rewrite Hf. cbn [py_any]. unfold bind at 1.
    unfold cond_aktivi, py_or, bind, print, ret. cbn [truthy].
    split.
    + intros Ha. rewrite Ha. split; reflexivity.
    + intros Hback.
      destruct (aktivi_test normalize (normalize filename));
        [reflexivity |].
      pose proof (py_any_silent_front back [] (normalize filename)
                    {| today := today w;
                       stdout := stdout w
                                 ++ [aktivi_message normalize
                                       (normalize filename)] |} Hback)
        as Hb.
      rewrite app_nil_r in Hb.
      refine (eq_trans (f_equal snd Hb) _).
      match goal with
      | |- context [existsb ?f back] => destruct (existsb f back)
      end; reflexivity.
Qed.

(** X6 on a file that the "sr" condition accepts before the diagnostic
    condition is reached: nothing is printed. *)
Lemma X6_nothing_printed_after_a_match :
  effect (file_matches lower
            ([cond_01x lower; cond_sr lower] ++ cond_aktivi lower :: [])
            (u "SR_aktivi.txt")) friday = friday.
Proof.
  assert (H : Forall silent [cond_01x lower; cond_sr lower]).
  { apply List.Forall_cons; [apply silent_cond_01x |].
    apply List.Forall_cons; [apply silent_cond_sr | apply List.Forall_nil]. }
  apply (proj1 (X6_diagnostic_line_only_when_reached lower
                  [cond_01x lower; cond_sr lower] [] (u "SR_aktivi.txt")
                  friday H)).
  exists (cond_sr lower). split; [right; left; reflexivity |].
  vm_compute. reflexivity.
Defined.

(* ================================================================== *)
(** * The bookkeeping of create_observers and cleanup_observers *)
(* ================================================================== *)

Section BookkeepingFacts.

Import Main.

Variable h : host.

Lemma length_enumerate_from {A} (l : list A) (i : nat) :
  length (enumerate_from i l) = length l.
Proof.
  revert i. induction l as [|x l IH]; intros i; [reflexivity |].
  cbn [enumerate_from length]. now rewrite IH.
Qed.

Lemma at_level_app (l : level) (a b : list log_record) :
  at_level l (a ++ b) = at_level l a ++ at_level l b.
Proof. apply List.filter_app. Qed.

(** Each configuration ends in exactly one of three ways. *)
Lemma activation_one (ic : nat * config) :
  (length (started h ic)
   + length (at_level WARNING [activation_record h ic])
   + length (at_level ERROR [activation_record h ic]) = 1)%nat.
Proof.
  unfold started, activation_record.
  destruct (activate h (fst ic) (snd ic)); reflexivity.
Qed.

Lemma activation_partition (l : list (nat * config)) :
  (length (flat_map (started h) l)
   + length (at_level WARNING (List.map (activation_record h) l))
   + length (at_level ERROR (List.map (activation_record h) l))
   = length l)%nat.
Proof.
  induction l as [|ic l IH]; [reflexivity |].
  cbn [flat_map List.map length].
  change (activation_record h ic :: List.map (activation_record h) l)
    with ([activation_record h ic] ++ List.map (activation_record h) l).
  rewrite !at_level_app, !length_app.
  pose proof (activation_one ic). lia.
Qed.

Lemma cleanup_fold (l : list (nat * (observer * config)))
  (log : list log_record) :
  fold_left (cleanup_step h) l log = log ++ List.map (cleanup_record h) l.
Proof.
  revert log. induction l as [|[i [o c]] l IH]; intros log.
  - cbn. now rewrite app_nil_r.
  - cbn [fold_left List.map]. rewrite IH.
    unfold cleanup_step, cleanup_record. cbn [fst snd].
    destruct (stop_error h o); now rewrite <- app_assoc.
Qed.

Lemma cleanup_observers_eq (observers : list (observer * config)) :
  cleanup_observers h observers =
  (INFO, Stopping_observers)
  :: List.map (cleanup_record h) (enumerate_from 0 observers)
  ++ [(INFO, All_observers_stopped)].
Proof. unfold cleanup_observers. now rewrite cleanup_fold. Qed.

End BookkeepingFacts.

(** X7: every configuration leaves exactly one trace in
    [create_observers]: the log has one line per configuration between
    its first and its last line, each configuration ends as an
    observer, as a warning (directory missing) or as an error
    (exception), and the closing line reports the number of observers
    returned. *)
Theorem X7_every_configuration_leaves_one_trace :
  forall (h : Main.host) (configs : list Main.config),
    let observers := fst (Main.create_observers h configs) in
    let log := snd (Main.create_observers h configs) in
    length log = (length configs + 2)%nat /\
    (length observers + length (at_level Main.WARNING log)
     + length (at_level Main.ERROR log) = length configs)%nat /\
    exists lines,
      log = (Main.INFO, Main.Creating_observers) :: lines
            ++ [(Main.INFO,
                 Main.Observers_created (length observers)
                   (length configs))] /\
      length lines = length configs.
Proof.
  intros h configs observers log. subst observers log.
  rewrite create_observers_snd, create_observers_fst.
  split; [| split].
  - cbn [length]. rewrite length_app, length_map, length_enumerate_from.
    cbn [length]. lia.
  - change ((Main.INFO, Main.Creating_observers)
            :: List.map (activation_record h) (Main.enumerate_from 0 configs)
            ++ [(Main.INFO,
                 Main.Observers_created
                   (length (flat_map (started h)
                              (Main.enumerate_from 0 configs)))
                   (length configs))])
      with ([(Main.INFO, Main.Creating_observers)]
            ++ List.map (activation_record h)
                 (Main.enumerate_from 0 configs)
            ++ [(Main.INFO,
                 Main.Observers_created
                   (length (flat_map (started h)
                              (Main.enumerate_from 0 configs)))
                   (length configs))]).
    rewrite !at_level_app. rewrite !length_app. cbn [at_level List.filter
      fst length].
    pose proof (activation_partition h (Main.enumerate_from 0 configs)) as H.
    rewrite length_enumerate_from in H. lia.
  - eexists. split; [reflexivity |].
    now rewrite length_map, length_enumerate_from.
Qed.

(** X8: the default descriptions are told apart by their number: two
    configurations without a [description] key get the same default
    description only at the same index. *)
Theorem X8_default_descriptions_distinct :
  forall (i j : nat) (c c' : Main.config),
    Main.description c = None ->
    Main.description c' = None ->
    (Main.description_of i c = Main.description_of j c' <-> i = j).
Proof.
  intros i j c c' Hc Hc'. unfold Main.description_of. rewrite Hc, Hc'.
  split; [| now intros ->].
  intros H. apply app_inv_head in H. apply str_of_N_inj in H. lia.
Qed.

(** X8 on the two sample rules, at the indices 0 and 1. *)
Lemma X8_first_and_second_rule :
  Main.description_of 0 rule_without_source
  = Main.description_of 1 rule_without_destination <-> 0%nat = 1%nat.
Proof.
  apply (X8_default_descriptions_distinct 0 1 rule_without_source
           rule_without_destination); reflexivity.
Defined.

(** X9: [cleanup_observers] tries to stop every observer it is given: an
    exception while stopping one is logged as a warning with its
    position, the others are stopped all the same, and the log has one
    line per observer between its first and its last line. *)
Theorem X9_cleanup_attempts_every_observer :
  forall (h : Main.host) (observers : list (Main.observer * Main.config)),
    length (Main.cleanup_observers h observers)
    = (length observers + 2)%nat /\
    forall i o c,
      nth_error observers i = Some (o, c) ->
      match Main.stop_error h o with
      | Some e =>
          In (Main.WARNING, Main.Observer_stop_error (i + 1) e)
             (Main.cleanup_observers h observers)
      | None =>
          In (Main.INFO, Main.Observer_stopped (Main.description_of i c))
             (Main.cleanup_observers h observers)
      end.
Proof.
  intros h observers. rewrite cleanup_observers_eq. split.
  - cbn [length]. rewrite length_app, length_map, length_enumerate_from.
    cbn [length]. lia.
  - intros i o c Hi.
    assert (Hin : In (cleanup_record h (i, (o, c)))
                     ((Main.INFO, Main.Stopping_observers)
                      :: List.map (cleanup_record h)
                           (Main.enumerate_from 0 observers)
                      ++ [(Main.INFO, Main.All_observers_stopped)])).
    { right. apply in_or_app. left. apply List.in_map.
      now apply in_enumerate_0. }
    unfold cleanup_record in Hin. cbn [fst snd] in Hin.
    destruct (Main.stop_error h o); exact Hin.
Qed.

(* ================================================================== *)
(** * What main leaves behind *)
(* ================================================================== *)

Section MainTraces.

Import Main.

Lemma emit_logged (records : list log_record) :
  forall s,
    logger (module_globals s) = true ->
    emit records s = (Normal tt, logged s records).
Proof.
  induction records as [|[l m] rest IH]; intros s H.
  - unfold logged. cbn [emit skip]. rewrite app_nil_r. now destruct s.
  - cbn [emit]. unfold and_then, log. rewrite H.
    rewrite IH by exact H. unfold logged. cbn [module_globals journal
      toasts local_observers]. now rewrite <- app_assoc.
Qed.

Lemma log_logged (l : level) (m : message) (s : state) :
  logger (module_globals s) = true ->
  log l m s = (Normal tt, logged s [(l, m)]).
Proof. intros H. unfold log. now rewrite H. Qed.



















(** The [finally] clause with the logger bound: what it adds to the log
    and what it leaves of the rest. *)
Lemma main_finally_logged (env : run_env) (s : state) :
  logger (module_globals s) = true ->
  local_observers (snd (main_finally env s)) = local_observers s /\
  journal (snd (main_finally env s)) =
  journal s
  ++ [(INFO, Shutting_down)]
  ++ match local_observers s with
     | Some observers => cleanup_observers (the_host env) observers
     | None => []
     end
  ++ [(INFO, System_stopped)].
Proof.
  intros H. unfold main_finally, and_then.
  rewrite (log_logged _ _ s H). unfold set_RUNNING.
  cbn [logged module_globals journal toasts local_observers].
  destruct (local_observers s) as [observers|].
  - rewrite emit_logged by exact H.
    rewrite log_logged by exact H. unfold return_, logged.
    cbn [snd module_globals journal toasts local_observers].
    split; [reflexivity |]. now rewrite <- !app_assoc.
  - rewrite log_logged by exact H. unfold return_, logged.
    cbn [snd module_globals journal toasts local_observers].
    split; [reflexivity |]. now rewrite <- !app_assoc.
Qed.

End MainTraces.



Section MainPaths.

Import Main.

Lemma and_then_normal {A B} (m : stmt A) (k : A -> stmt B) (s s' : state)
  (a : A) :
  m s = (Normal a, s') -> and_then m k s = k a s'.
Proof. intros H. unfold and_then. now rewrite H. Qed.

Lemma and_then_log {B} (l : level) (m : message) (k : unit -> stmt B)
  (s : state) :
  logger (module_globals s) = true ->
  and_then (log l m) k s = k tt (logged s [(l, m)]).
Proof. intros H. apply and_then_normal. now apply log_logged. Qed.

Lemma and_then_emit {B} (records : list log_record) (k : unit -> stmt B)
  (s : state) :
  logger (module_globals s) = true ->
  and_then (emit records) k s = k tt (logged s records).
Proof. intros H. apply and_then_normal. now apply emit_logged. Qed.


Lemma check_configuration_passed (env : run_env) (s : state) :
  check_error (the_checks env) = None ->
  logger (module_globals s) = true ->
  exists records,
    check_configuration env s = (Normal true, logged s records).
Proof.
  intros Hc Hl. unfold check_configuration, validate_configuration.
  rewrite Hc. eexists. now rewrite and_then_emit.
Qed.

(** The state right after line 249 has bound the logger. *)
Lemma main_body_after_setup (env : run_env) (s : state) :
  setup_logging env = None ->
  main_body env s = main_after_setup env (snd (set_logger s)).
Proof.
  intros H. unfold main_body, bind_logger. rewrite H. reflexivity.
Qed.

(** Nothing is created when no source directory exists. *)
Lemma create_observers_none (h : host) (configs : list config) :
  (forall c p, In c configs -> watch_dir c = Some p ->
               path_exists h p = false) ->
  fst (create_observers h configs) = [].
Proof.
  intros Hmiss. rewrite create_observers_fst.
  destruct (flat_map (started h) (enumerate_from 0 configs))
    as [|[o c] rest] eqn:E; [reflexivity | exfalso].
  assert (Hin : In (o, c) (flat_map (started h) (enumerate_from 0 configs)))
    by (rewrite E; now left).
  apply in_flat_map in Hin. destruct Hin as [[j c'] [Hj Hs]].
  apply in_enumerate_0 in Hj. apply nth_error_In in Hj.
  apply started_inv in Hs. cbn [fst snd] in Hs.
  destruct Hs as [-> [_ [Hw [_ [Hp _]]]]].
  rewrite (Hmiss c' (obs_path o) Hj Hw) in Hp. discriminate.
Qed.

(** The [finally] clause asks for no notification. *)
Lemma main_finally_toasts (env : run_env) (s : state) :
  logger (module_globals s) = true ->
  toasts (snd (main_finally env s)) = toasts s.
Proof.
  intros H. unfold main_finally, and_then.
  rewrite (log_logged _ _ s H). unfold set_RUNNING.
  cbn [logged module_globals journal toasts local_observers].
  destruct (local_observers s) as [observers|].
  - rewrite emit_logged by exact H.
    rewrite log_logged by exact H. reflexivity.
  - rewrite log_logged by exact H. reflexivity.
Qed.

(** What [main] leaves when the [try] body ends with [return]. *)
Lemma main_after_return (env : run_env) (s s1 : state) (code : Z) :
  main_body env s = (Return code, s1) ->
  logger (module_globals s1) = true ->
  local_observers (snd (main env s)) = local_observers s1 /\
  toasts (snd (main env s)) = toasts s1 /\
  journal (snd (main env s)) =
  journal s1
  ++ [(INFO, Shutting_down)]
  ++ match local_observers s1 with
     | Some observers => cleanup_observers (the_host env) observers
     | None => []
     end
  ++ [(INFO, System_stopped)].
Proof.
  intros Hbody Hl. unfold main, try_except_finally. rewrite Hbody.
  destruct (main_finally_logged env s1 Hl) as [Hsame Hj].
  pose proof (main_finally_toasts env s1 Hl) as Ht.
  destruct (main_finally env s1) as [c3 s3]. cbn [snd] in *.
  assert (Hs3 : snd (match c3 with
                     | Normal _ => (@Return unit code, s3)
                     | _ => (c3, s3)
                     end) = s3) by now destruct c3.
  rewrite Hs3. auto.
Qed.

End MainPaths.



(** X12: when no configured source directory exists, [main] gives up:
    [create_observers] returns no observer, one error notification is
    asked for, the [try] body ends with [return 1], and the empty list
    is what the [finally] clause hands to [cleanup_observers]. *)
Theorem X12_no_source_directory_no_service :
  forall (env : Main.run_env) (s : Main.state),
    Main.setup_logging env = None ->
    Main.interrupt env Main.At_signal = None ->
    Main.interrupt env Main.At_create_observers = None ->
    Main.check_error (Main.the_checks env) = None ->
    (forall c p,
       In c (Main.WATCH_CONFIGS env) -> Main.watch_dir c = Some p ->
       Main.path_exists (Main.the_host env) p = false) ->
    fst (Main.main_body env s) = Main.Return 1 /\
    Main.local_observers (snd (Main.main env s)) = Some [] /\
    Main.toasts (snd (Main.main env s)) =
    Main.toasts s
    ++ [Notifications.show_error_notification (Main.the_desktop env)
          (u "Не удалось запустить наблюдателей")].
Proof.
  intros env s Hsetup Hsig Hcreate Hcheck Hmiss.
  assert (Hbody : exists s1,
             Main.main_body env s = (Main.Return 1, s1) /\
             Main.logger (Main.module_globals s1) = true /\
             Main.local_observers s1 = Some [] /\
             Main.toasts s1 =
             Main.toasts s
             ++ [Notifications.show_error_notification (Main.the_desktop env)
                   (u "Не удалось запустить наблюдателей")]).
  { rewrite main_body_after_setup by exact Hsetup.
    unfold Main.main_after_setup.
    rewrite !and_then_log by reflexivity.
    unfold Main.at_site. rewrite Hsig, Hcreate.
    unfold Main.and_then at 1. cbn [Main.skip].
    match goal with
    | |- context [Main.and_then (Main.check_configuration env) ?k ?st] =>
        destruct (check_configuration_passed env st Hcheck eq_refl)
          as [records Hrec];
        rewrite (and_then_normal _ k st _ _ Hrec)
    end.
    cbn [negb].
    unfold Main.and_then at 1. cbn [Main.skip].
    pose proof (create_observers_none (Main.the_host env)
                  (Main.WATCH_CONFIGS env) Hmiss) as Hnone.
    destruct (Main.create_observers (Main.the_host env)
                (Main.WATCH_CONFIGS env)) as [observers log].
    cbn [fst] in Hnone. subst observers.
    rewrite and_then_emit by reflexivity.
    unfold Main.and_then at 1, Main.set_observers at 1.
    rewrite and_then_log by reflexivity.
    unfold Main.and_then, Main.notify, Main.return_.
    eexists. split; [reflexivity |].
    split; [reflexivity |]. split; reflexivity. }
  destruct Hbody as [s1 [Hbody [Hl [Ho Ht]]]].
  split; [now rewrite Hbody |].
  destruct (main_after_return env s s1 1%Z Hbody Hl) as [Ho' [Ht' _]].
  rewrite Ho', Ht'. split; assumption.
Qed.

(** X12 on a run whose only rule points at a directory that does not
    exist. *)
Lemma X12_only_rule_missing :
  fst (Main.main_body
         {| Main.the_host := host_without_destination;
            Main.the_checks := checks_without_destination;
            Main.the_desktop := Main.the_desktop quiet_env;
            Main.WATCH_CONFIGS := [rule_without_source];
            Main.logging_error := None;
            Main.fallback_error := None;
            Main.interrupt := fun _ => None;
            Main.tray_ready := false;
            Main.signal_after := 0;
            Main.exception_text := fun _ => [] |} Main.initial)
  = Main.Return 1.
Proof.
  apply (X12_no_source_directory_no_service
           {| Main.the_host := host_without_destination;
              Main.the_checks := checks_without_destination;
              Main.the_desktop := Main.the_desktop quiet_env;
              Main.WATCH_CONFIGS := [rule_without_source];
              Main.logging_error := None;
              Main.fallback_error := None;
              Main.interrupt := fun _ => None;
              Main.tray_ready := false;
              Main.signal_after := 0;
              Main.exception_text := fun _ => [] |} Main.initial);
    try reflexivity.
  intros c p [<- | []] Hw. injection Hw as <-. vm_compute. reflexivity.
Defined.

(* ================================================================== *)
(** * The schedule of background_monitoring *)
(* ================================================================== *)


Section MonitoringFacts.

Import Main Monitoring.

Variables HEALTH_CHECK_INTERVAL HEARTBEAT_INTERVAL : nat.
Variable g : globals.
Hypothesis running : RUNNING g = true.
Hypothesis positive : (0 < HEARTBEAT_INTERVAL)%nat.



End MonitoringFacts.



(* ================================================================== *)
(** * The tray application *)
(* ================================================================== *)

Section TrayFacts.

Import TrayMenu.

Lemma size_eqb_eq (a b : nat * nat) : size_eqb a b = true -> a = b.
Proof.
  destruct a as [w h], b as [w' h']. unfold size_eqb. cbn [fst snd].
  intros H. apply andb_true_iff in H. destruct H as [Hw Hh].
  apply Nat.eqb_eq in Hw, Hh. now subst.
Qed.

Lemma drawn_icon_size (k : toolkit) (img : image) :
  drawn_icon k = Some img -> size img = (64, 64)%nat.
Proof.
  unfold drawn_icon. destruct (draw_error k); [discriminate |].
  intros H. now injection H as <-.
Qed.

Lemma count_alive_le (is_alive : Main.observer -> exception + bool)
  (observers : list (Main.observer * Main.config)) (n : nat) :
  count_alive is_alive observers = inr n -> (n <= length observers)%nat.
Proof.
  revert n. induction observers as [|[o c] rest IH]; intros n.
  - cbn [count_alive]. intros H. injection H as <-. cbn. lia.
  - cbn [count_alive length]. destruct (is_alive o) as [e | alive];
      [discriminate |].
    destruct (count_alive is_alive rest) as [e | m]; [discriminate |].
    intros H. injection H as <-. specialize (IH m eq_refl).
    destruct alive; lia.
Qed.

Lemma create_tray_icon_size (k : toolkit) (img : image) :
  create_tray_icon k = Some img ->
  size img = (64, 64)%nat /\ imports_ok k = true.
Proof.
  unfold create_tray_icon. destruct (imports_ok k); cbn [negb];
    [| discriminate].
  destruct (icon_file k) as [[e | sz]|].
  - intros H. split; [now apply (drawn_icon_size k) | reflexivity].
  - destruct (size_eqb sz (64, 64)%nat) eqn:Es.
    + intros H. injection H as <-. cbn [size].
      split; [now apply size_eqb_eq | reflexivity].
    + destruct (resize_error k).
      * intros H. split; [now apply (drawn_icon_size k) | reflexivity].
      * intros H. injection H as <-. split; reflexivity.
  - intros H. split; [now apply (drawn_icon_size k) | reflexivity].
Qed.

End TrayFacts.

(** X14: [quit_app] clears both flags before it stops the icon.  When
    [icon.stop()] raises, the flags are cleared all the same, but the
    shutdown notification is skipped, the icon is left as it was and
    the error is logged; on every other path exactly one shutdown
    notification is asked for.  The observers are never touched:
    [quit_app] stops none of them. *)
Theorem X14_quit_app_when_stopping_the_icon_fails :
  forall (d : Notifications.desktop) (icon_stop_error : option exception)
         (p : Tray.process),
    let p' := Tray.quit_app d icon_stop_error p in
    Tray.observers (Tray.app p') = Tray.observers (Tray.app p) /\
    (forall e,
       Tray.icon (Tray.app p) <> None -> icon_stop_error = Some e ->
       Tray.settings_RUNNING p' = Some false /\
       Tray.running (Tray.app p') = false /\
       Tray.icon (Tray.app p') = Tray.icon (Tray.app p) /\
       Tray.tray_toasts p' = Tray.tray_toasts p /\
       Tray.tray_journal p' =
       Tray.tray_journal p
       ++ [(Main.INFO, Tray.Quit_requested); (Main.ERROR, Tray.Quit_error e)]) /\
    (Tray.icon (Tray.app p) = None \/ icon_stop_error = None ->
     Tray.tray_toasts p' =
     Tray.tray_toasts p ++ [Notifications.show_shutdown_notification d] /\
     Tray.tray_journal p' =
     Tray.tray_journal p ++ [(Main.INFO, Tray.Quit_requested)]).
Proof.
  intros d icon_stop_error p p'. subst p'. unfold Tray.quit_app.
  split; [| split].
  - destruct (Tray.icon (Tray.app p)), icon_stop_error; reflexivity.
  - intros e Hicon ->.
    destruct (Tray.icon (Tray.app p)); [| contradiction].
    cbn [Tray.settings_RUNNING Tray.app Tray.running Tray.icon
         Tray.tray_toasts Tray.tray_journal].
    rewrite <- app_assoc. repeat split.
  - intros [Hicon | ->].
    + rewrite Hicon. split; reflexivity.
    + destruct (Tray.icon (Tray.app p)); split; reflexivity.
Qed.

(** X14 on the running process, with an icon whose [stop] raises. *)
Lemma X14_icon_stop_raises :
  Tray.tray_toasts (Tray.quit_app
                      {| Notifications.winotify_available := true;
                         Notifications.show_raises := false |}
                      (Some RuntimeError) running_process) = [] /\
  Tray.running (Tray.app (Tray.quit_app
                            {| Notifications.winotify_available := true;
                               Notifications.show_raises := false |}
                            (Some RuntimeError) running_process)) = false.
Proof.
  destruct (proj1 (proj2 (X14_quit_app_when_stopping_the_icon_fails
                            {| Notifications.winotify_available := true;
                               Notifications.show_raises := false |}
                            (Some RuntimeError) running_process))
              RuntimeError ltac:(discriminate) eq_refl)
    as [_ [Hr [_ [Ht _]]]].
  split; [exact Ht | exact Hr].
Defined.

(** X15: the numbers of [get_stats] add up on every path, also when
    [is_alive] raises and the zeros are returned: active plus inactive
    is the total, neither is negative, the total never exceeds the
    number of observers; [tray_running] needs both the [running] flag
    and an icon, so it is false after [quit_app]. *)
Theorem X15_get_stats_adds_up :
  forall (is_alive : Main.observer -> exception + bool)
         (self : Tray.TrayApp),
    let st := TrayMenu.get_stats is_alive self in
    (TrayMenu.active_observers st + TrayMenu.inactive_observers st
     = TrayMenu.total_observers st)%Z /\
    (0 <= TrayMenu.active_observers st)%Z /\
    (0 <= TrayMenu.inactive_observers st)%Z /\
    (TrayMenu.total_observers st
     <= Z.of_nat (length (Tray.observers self)))%Z /\
    (TrayMenu.tray_running st = true ->
     Tray.running self = true /\ Tray.icon self <> None) /\
    (forall d icon_stop_error p,
       self = Tray.app (Tray.quit_app d icon_stop_error p) ->
       TrayMenu.tray_running st = false).
Proof.
  intros is_alive self st. subst st. unfold TrayMenu.get_stats.
  destruct (TrayMenu.count_alive is_alive (Tray.observers self))
    as [e | n] eqn:E;
    cbn [TrayMenu.active_observers TrayMenu.inactive_observers
         TrayMenu.total_observers TrayMenu.tray_running].
  - repeat split; try lia; try discriminate.
  - apply count_alive_le in E.
    split; [lia |]. split; [lia |]. split; [lia |]. split; [lia |].
    split.
    + intros H. apply andb_true_iff in H. destruct H as [Hr Hi].
      split; [exact Hr |]. destruct (Tray.icon self); [discriminate |].
      discriminate.
    + intros d icon_stop_error p ->. unfold Tray.quit_app.
      destruct (Tray.icon (Tray.app p)), icon_stop_error; reflexivity.
Qed.

(** X16: every icon [create_tray_icon] returns is 64 by 64 pixels,
    whether it was loaded (and resized if need be) or drawn; it returns
    an icon whenever the imports succeeded and drawing works, whatever
    happens to the icon file. *)
Theorem X16_tray_icon_is_64_by_64 :
  forall (k : TrayMenu.toolkit),
    (forall img,
       TrayMenu.create_tray_icon k = Some img ->
       TrayMenu.size img = (64, 64)%nat /\ TrayMenu.imports_ok k = true) /\
    (TrayMenu.imports_ok k = true -> TrayMenu.draw_error k = None ->
     TrayMenu.create_tray_icon k <> None) /\
    (TrayMenu.imports_ok k = false -> TrayMenu.create_tray_icon k = None).
Proof.
  intros k. split; [| split].
  - intros img. apply create_tray_icon_size.
  - intros Hi Hd. unfold TrayMenu.create_tray_icon. rewrite Hi.
    cbn [negb]. unfold TrayMenu.drawn_icon. rewrite Hd.
    destruct (TrayMenu.icon_file k) as [[e | sz]|]; try discriminate.
    destruct (TrayMenu.size_eqb sz (64, 64)%nat); [discriminate |].
    destruct (TrayMenu.resize_error k); discriminate.
  - intros Hi. unfold TrayMenu.create_tray_icon. now rewrite Hi.
Qed.

(** X17: from an application without an icon, [setup_tray] answers
    [True] exactly when it has set the icon, and changes nothing else;
    when it answers [False] the application is as before, and [run]
    refuses to start. *)
Theorem X17_setup_tray_sets_the_icon_or_nothing :
  forall (k : TrayMenu.toolkit) (self : Tray.TrayApp),
    Tray.icon self = None ->
    let ok := fst (TrayMenu.setup_tray k self) in
    let self' := snd (TrayMenu.setup_tray k self) in
    (ok = true <-> Tray.icon self' <> None) /\
    Tray.observers self' = Tray.observers self /\
    Tray.running self' = Tray.running self /\
    (ok = false -> self' = self /\ TrayMenu.run k self' = false) /\
    (ok = true ->
     TrayMenu.imports_ok k = true /\
     exists img, TrayMenu.create_tray_icon k = Some img /\
                 TrayMenu.size img = (64, 64)%nat).
Proof.
  intros k self Hicon ok self'. subst ok self'.
  unfold TrayMenu.setup_tray.
  destruct (TrayMenu.imports_ok k) eqn:Hi; cbn [negb].
  - destruct (TrayMenu.create_tray_icon k) as [img|] eqn:Hc.
    + destruct (TrayMenu.icon_error k); cbn [fst snd].
      * rewrite Hicon. unfold TrayMenu.run. rewrite Hicon.
        repeat split; try discriminate; try contradiction.
      * cbn [Tray.icon Tray.observers Tray.running].
        repeat split; try discriminate.
        exists img. split; [reflexivity |].
        now apply (create_tray_icon_size k img).
    + cbn [fst snd]. rewrite Hicon. unfold TrayMenu.run. rewrite Hicon.
      repeat split; try discriminate; try contradiction.
  - cbn [fst snd]. rewrite Hicon. unfold TrayMenu.run. rewrite Hicon.
    repeat split; try discriminate; try contradiction.
Qed.

(** X17 on a fresh [TrayApp()] and a toolkit without the imports: the
    answer is [False] and [run] refuses to start. *)
Lemma X17_fresh_app_without_imports :
  TrayMenu.run
    {| TrayMenu.imports_ok := false;
       TrayMenu.icon_file := None;
       TrayMenu.resize_error := None;
       TrayMenu.draw_error := None;
       TrayMenu.icon_error := None;
       TrayMenu.run_error := None |}
    (snd (TrayMenu.setup_tray
            {| TrayMenu.imports_ok := false;
               TrayMenu.icon_file := None;
               TrayMenu.resize_error := None;
               TrayMenu.draw_error := None;
               TrayMenu.icon_error := None;
               TrayMenu.run_error := None |} TrayMenu.init)) = false.
Proof.
  apply (X17_setup_tray_sets_the_icon_or_nothing
           {| TrayMenu.imports_ok := false;
              TrayMenu.icon_file := None;
              TrayMenu.resize_error := None;
              TrayMenu.draw_error := None;
              TrayMenu.icon_error := None;
              TrayMenu.run_error := None |} TrayMenu.init eq_refl).
  reflexivity.
Defined.

(* ================================================================== *)
(** * The notification of a new file *)
(* ================================================================== *)

(** X18: in [show_notification] an empty custom title or message counts
    as none: the title falls back to [NOTIFICATION_TITLE], the message to
    the file name.  So the toast that is built has a title whenever
    [NOTIFICATION_TITLE] is not empty and a message whenever the file
    name is not empty; it carries the icon only when the icon file
    exists, and nothing is built when [winotify] is missing. *)
Theorem X18_empty_custom_text_falls_back :
  forall (d : Notifications.desktop) (NOTIFICATION_TITLE ICON_PATH : pystr)
         (icon_exists : bool) (file_name : pystr)
         (custom_title custom_message : option pystr),
    let shown :=
      FileNotification.show_notification d NOTIFICATION_TITLE ICON_PATH
        icon_exists file_name custom_title custom_message in
    (Notifications.winotify_available d = false ->
     shown = FileNotification.No_module) /\
    (forall t,
       shown = FileNotification.Toast_shown t \/
       shown = FileNotification.Toast_failed t ->
       (custom_title = None \/ custom_title = Some [] ->
        FileNotification.ft_title t = NOTIFICATION_TITLE) /\
       (custom_message = None \/ custom_message = Some [] ->
        FileNotification.ft_msg t = file_name) /\
       (forall title, title <> [] -> custom_title = Some title ->
                      FileNotification.ft_title t = title) /\
       (NOTIFICATION_TITLE <> [] -> FileNotification.ft_title t <> []) /\
       (file_name <> [] -> FileNotification.ft_msg t <> []) /\
       (FileNotification.ft_icon t <> None <-> icon_exists = true)).
Proof.
  intros d T I icon_exists file_name ct cm shown. subst shown.
  unfold FileNotification.show_notification. split.
  - intros H. now rewrite H.
  - intros t Ht.
    assert (Hbuilt : t = {| FileNotification.ft_title :=
                              FileNotification.str_or ct T;
                            FileNotification.ft_msg :=
                              FileNotification.str_or cm file_name;
                            FileNotification.ft_icon :=
                              if icon_exists then Some I else None;
                            FileNotification.ft_sound := true |}).
    { destruct (Notifications.winotify_available d); cbn [negb] in Ht.
      - destruct (Notifications.show_raises d);
          destruct Ht as [Ht | Ht]; try discriminate;
          now injection Ht as <-.
      - destruct Ht as [Ht | Ht]; discriminate. }
    subst t. cbn [FileNotification.ft_title FileNotification.ft_msg
                  FileNotification.ft_icon].
    split; [| split; [| split; [| split; [| split]]]].
    + intros [-> | ->]; reflexivity.
    + intros [-> | ->]; reflexivity.
    + intros title Hne ->. destruct title; [contradiction | reflexivity].
    + intros Hne. destruct ct as [[|c s]|]; cbn [FileNotification.str_or];
        [exact Hne | discriminate | exact Hne].
    + intros Hne. destruct cm as [[|c s]|]; cbn [FileNotification.str_or];
        [exact Hne | discriminate | exact Hne].
    + destruct icon_exists; split; intros H;
        try reflexivity; try discriminate; contradiction.
Qed.

(** X18 on a call with an empty custom title: the toast that is shown
    carries the default title. *)
Lemma X18_empty_title :
  FileNotification.show_notification
    {| Notifications.winotify_available := true;
       Notifications.show_raises := false |}
    (u "Новый файл") (u "icon.ico") false (u "01X_a.xlsx") (Some []) None
  = FileNotification.Toast_shown
      {| FileNotification.ft_title := u "Новый файл";
         FileNotification.ft_msg := u "01X_a.xlsx";
         FileNotification.ft_icon := None;
         FileNotification.ft_sound := true |} /\
  FileNotification.ft_title
    {| FileNotification.ft_title := u "Новый файл";
       FileNotification.ft_msg := u "01X_a.xlsx";
       FileNotification.ft_icon := None;
       FileNotification.ft_sound := true |} = u "Новый файл".
Proof.
  split; [reflexivity |].
  apply (proj1 (proj2 (X18_empty_custom_text_falls_back
                         {| Notifications.winotify_available := true;
                            Notifications.show_raises := false |}
                         (u "Новый файл") (u "icon.ico") false
                         (u "01X_a.xlsx") (Some []) None)
                  {| FileNotification.ft_title := u "Новый файл";
                     FileNotification.ft_msg := u "01X_a.xlsx";
                     FileNotification.ft_icon := None;
                     FileNotification.ft_sound := true |}
                  (or_introl eq_refl))).
  right. reflexivity.
Defined.
